(** * LAN voice input: the command interpreter, the dedup gate and the
      command-execution channel of [lanvi_input.py]

    A shallow embedding of [src/lanvi_input.py] (classes [CommandProcessor] and
    [InputService], with the helpers [execute_output], [_build_command_args]
    and [_match_command]), followed by the properties the specification
    states about them.

    Conventions of the embedding.
    - A Python [str] is the list of its Unicode code points ([ustring]);
      [len] is [length], slicing is [firstn].  Literals are written as UTF-8
      Rocq strings and decoded by [u].
    - A Python [int] is a [Z].
    - [time.time()] is read once per call of [_server_dedup]; the reading is
      an argument [now : Q] of the embedded function (seconds, as an exact
      rational).
    - The injector ([send_unicode_text], [backspace], [press_enter], ...),
      [notify] and [print] are recorded as a trace of [event]s, in program
      order; the operating system is taken to accept what is sent.
    - [subprocess.run] is an oracle passed to [execute_command]. *)

From Stdlib Require Import Ascii String DecimalString.
From Stdlib Require Import List Bool Arith NArith ZArith QArith Lia.
Import ListNotations.

Close Scope Q_scope.
Local Open Scope list_scope.

(* ------------------------------------------------------------------ *)
(** ** Python strings *)

Definition ustring : Type := list N.

(** UTF-8 decoding of a source literal: [pending] continuation bytes are
    still expected for the code point accumulated in [acc]. *)
Fixpoint utf8_decode (pending : nat) (acc : N) (bs : list N) : ustring :=
  match bs with
  | [] => []
  | b :: bs' =>
      if (b <? 0x80)%N then b :: utf8_decode 0 0%N bs'
      else if (b <? 0xC0)%N then
        let acc' := (acc * 64 + (b - 0x80))%N in
        match pending with
        | 0 => utf8_decode 0 0%N bs'
        | 1 => acc' :: utf8_decode 0 0%N bs'
        | S p => utf8_decode p acc' bs'
        end
      else if (b <? 0xE0)%N then utf8_decode 1 (b - 0xC0)%N bs'
      else if (b <? 0xF0)%N then utf8_decode 2 (b - 0xE0)%N bs'
      else utf8_decode 3 (b - 0xF0)%N bs'
  end.

Definition bytes_of_string (s : string) : list N :=
  map N_of_ascii (list_ascii_of_string s).

(** The Python literal ["..."] as a list of code points. *)
Definition u (s : string) : ustring := utf8_decode 0 0%N (bytes_of_string s).
Arguments u s%_string.

Fixpoint ustring_eqb (a b : ustring) : bool :=
  match a, b with
  | [], [] => true
  | x :: a', y :: b' => (x =? y)%N && ustring_eqb a' b'
  | _, _ => false
  end.

(** [x in [a, b, ...]] *)
Definition mem (x : ustring) (l : list ustring) : bool :=
  existsb (ustring_eqb x) l.

(** [str.isspace] for one character (also the class [\s] of [re] on [str]):
    the code points CPython's [Py_UNICODE_ISSPACE] accepts. *)
Definition is_space (c : N) : bool :=
  ((0x09 <=? c) && (c <=? 0x0D) || (0x1C <=? c) && (c <=? 0x20)
   || (c =? 0x85) || (c =? 0xA0) || (c =? 0x1680)
   || (0x2000 <=? c) && (c <=? 0x200A)
   || (c =? 0x2028) || (c =? 0x2029) || (c =? 0x202F) || (c =? 0x205F)
   || (c =? 0x3000))%N.

Fixpoint lstrip (s : ustring) : ustring :=
  match s with
  | c :: s' => if is_space c then lstrip s' else s
  | [] => []
  end.

Definition rstrip (s : ustring) : ustring := rev (lstrip (rev s)).

(** [str.strip()] *)
Definition strip (s : ustring) : ustring := rstrip (lstrip s).

Fixpoint starts_with (k s : ustring) : bool :=
  match k, s with
  | [], _ => true
  | a :: k', b :: s' => (a =? b)%N && starts_with k' s'
  | _ :: _, [] => false
  end.

(** [str.replace(k, v)] for a non-empty [k]: occurrences are replaced from
    left to right and do not overlap; [skip] characters of an occurrence
    already replaced remain to be dropped. *)
Fixpoint replace_from (k v : ustring) (skip : nat) (s : ustring) : ustring :=
  match s with
  | [] => []
  | c :: s' =>
      match skip with
      | S n => replace_from k v n s'
      | O =>
          if starts_with k s then v ++ replace_from k v (length k - 1) s'
          else c :: replace_from k v 0 s'
      end
  end.

(** [str.replace(k, v)]; an empty [k] puts [v] before every character and
    at the end. *)
Definition replace (k v s : ustring) : ustring :=
  match k with
  | [] => v ++ flat_map (fun c => c :: v) s
  | _ :: _ => replace_from k v 0 s
  end.

(** The zero digits of the decimal-digit blocks of Unicode (category Nd,
    Unicode 14.0 as in CPython 3.11): every block is ten consecutive code
    points of values 0 to 9.  This is the class [\d] of [re] on [str] and
    what [int] accepts as a digit. *)
Definition decimal_zeros : list N :=
  [0x30; 0x660; 0x6f0; 0x7c0; 0x966; 0x9e6; 0xa66; 0xae6; 0xb66; 0xbe6;
   0xc66; 0xce6; 0xd66; 0xde6; 0xe50; 0xed0; 0xf20; 0x1040; 0x1090; 0x17e0;
   0x1810; 0x1946; 0x19d0; 0x1a80; 0x1a90; 0x1b50; 0x1bb0; 0x1c40; 0x1c50;
   0xa620; 0xa8d0; 0xa900; 0xa9d0; 0xa9f0; 0xaa50; 0xabf0; 0xff10; 0x104a0;
   0x10d30; 0x11066; 0x110f0; 0x11136; 0x111d0; 0x112f0; 0x11450; 0x114d0;
   0x11650; 0x116c0; 0x11730; 0x118e0; 0x11950; 0x11c50; 0x11d50; 0x11da0;
   0x16a60; 0x16ac0; 0x16b50; 0x1d7ce; 0x1d7d8; 0x1d7e2; 0x1d7ec; 0x1d7f6;
   0x1e140; 0x1e2f0; 0x1e950; 0x1fbf0]%N.

(** The value of a decimal digit, [None] for any other character. *)
Definition decimal_value (c : N) : option Z :=
  match find (fun z => (z <=? c) && (c <? z + 10))%N decimal_zeros with
  | Some z => Some (Z.of_N (c - z))
  | None => None
  end.

Definition is_digit (c : N) : bool :=
  match decimal_value c with Some _ => true | None => false end.

(** [int(s)] for a string of decimal digits (Python integers are unbounded;
    a character that is no digit counts 0 and does not occur in the uses
    below). *)
Definition int_of_digits (s : ustring) : Z :=
  fold_left
    (fun acc c => (acc * 10 + match decimal_value c with Some d => d | None => 0 end)%Z)
    s 0%Z.

(** [str(n)] for an integer. *)
Definition str_of_int (n : Z) : ustring :=
  bytes_of_string (NilZero.string_of_int (Z.to_int n)).

(** The maximal prefix of [s] whose characters satisfy [p], and the rest. *)
Fixpoint span (p : N -> bool) (s : ustring) : ustring * ustring :=
  match s with
  | c :: s' =>
      if p c then let (a, b) := span p s' in (c :: a, b) else ([], s)
  | [] => ([], [])
  end.

(* ------------------------------------------------------------------ *)
(** ** Module constants *)

Definition FORCE_CLICK_BEFORE_TYPE : bool := false.
Definition CLEAR_BACKSPACE_MAX : Z := 200.
Definition TEST_INJECT_TEXT : ustring := u "[SendInput Test] 123 ABC 中文 测试".
Definition SERVER_DEDUP_WINDOW_SEC : Q := 12 # 10.
Definition HISTORY_MAX_LEN : nat := 300.

(** [a < b] on timestamps, as a boolean. *)
Definition Qltb (a b : Q) : bool :=
  (Qnum a * Zpos (Qden b) <? Qnum b * Zpos (Qden a))%Z.

(* ------------------------------------------------------------------ *)
(** ** [collections.deque(maxlen=...)]

    The deque is the list of its elements from the left (oldest) to the
    right (newest). *)

(** [d.append(x)]: the element is added on the right, and the leftmost one
    is discarded when the length then exceeds [maxlen]. *)
Definition deque_append {A : Type} (maxlen : nat) (d : list A) (x : A) : list A :=
  let d' := d ++ [x] in
  if maxlen <? length d' then tl d' else d'.

(** [d.pop()]: the rightmost element and the remaining deque; [None] stands
    for the [IndexError] of an empty deque. *)
Definition deque_pop {A : Type} (d : list A) : option (A * list A) :=
  match rev d with
  | [] => None
  | x :: r => Some (x, rev r)
  end.

(* ------------------------------------------------------------------ *)
(** ** [CommandResult] *)

(** The first component of an action tuple: ["__BACKSPACE__"],
    ["__ENTER__"], ["__TAB__"], ["__ESC__"]. *)
Inductive key : Type := BACKSPACE | ENTER | TAB | ESC.

(** The values the field [output] takes: a string (the empty one is the
    specification's [Empty], any other its [TypeText]), an action tuple
    [(key, n)], or the dictionary [{"ok": .., "message": ..}] of the
    command channel. *)
Inductive py_output : Type :=
  | OStr (s : ustring)
  | OTuple (k : key) (n : Z)
  | ODict (ok : bool) (message : ustring).

Record CommandResult : Type := mkResult {
  handled : bool;
  display_text : ustring;
  output : py_output
}.

(** [out == ""] *)
Definition is_empty_output (out : py_output) : bool :=
  match out with
  | OStr [] => true
  | _ => false
  end.

(** [isinstance(out, str)] *)
Definition is_str (out : py_output) : bool :=
  match out with
  | OStr _ => true
  | _ => false
  end.

(* ------------------------------------------------------------------ *)
(** ** [CommandProcessor] *)

Record CommandProcessor : Type := mkProcessor {
  paused : bool;
  history : list ustring
}.

(** [CommandProcessor.__init__] *)
Definition new_processor : CommandProcessor :=
  {| paused := false; history := [] |}.

(** [self.alias], in insertion order (the order [dict.items()] iterates). *)
Definition alias : list (ustring * ustring) :=
  [(u "豆号", u "逗号"); (u "都好", u "逗号"); (u "据号", u "句号");
   (u "聚好", u "句号"); (u "句点", u "句号")].

(** [self.punc_map] *)
Definition punc_map : list (ustring * ustring) :=
  [(u "逗号", u "，"); (u "句号", u "。"); (u "问号", u "？");
   (u "感叹号", u "！"); (u "冒号", u "："); (u "分号", u "；");
   (u "顿号", u "、")].

(** [d.get(k)] on a dictionary given by its items. *)
Fixpoint dict_get (d : list (ustring * ustring)) (k : ustring) : option ustring :=
  match d with
  | [] => None
  | (k', v) :: d' => if ustring_eqb k k' then Some v else dict_get d' k
  end.

Definition pause_phrases : list ustring :=
  [u "暂停输入"; u "暂停"; u "停止输入"].
Definition resume_phrases : list ustring :=
  [u "继续输入"; u "继续"; u "恢复输入"].
Definition enter_phrases : list ustring :=
  [u "换行"; u "回车"; u "下一行"; u "enter"; u "ENTER"; u "回车键";
   u "enter键"; u "Enter"].
Definition tab_phrases : list ustring :=
  [u "tab"; u "TAB"; u "制表符"; u "制表"; u "tab键"; u "TAB键"; u "Tab"].
Definition esc_phrases : list ustring :=
  [u "esc"; u "ESC"; u "escape"; u "ESC键"; u "esc键"; u "Escape"].
Definition undo_phrases : list ustring :=
  [u "删除上一句"; u "撤回上一句"; u "撤销上一句"; u "删掉上一句"].
Definition clear_phrases : list ustring :=
  [u "清空"; u "清除全部"; u "全部删除"].

(** [CommandProcessor.normalize] *)
Definition normalize (text : ustring) : ustring :=
  fold_left (fun t kv => replace (fst kv) (snd kv) t) alias (strip text).

(** A match of [(删除|退格)\s*(\d+)\s*(个字|次)?] that starts at the first
    character of [s]: its group 2.  Both quantifiers are greedy, [\s] and
    [\d] are disjoint and what follows group 2 can match the empty string,
    so group 2 is the longest run of digits after the longest run of
    white space, and there is a match exactly when that run is not empty.
    Both keywords are two characters long. *)
Definition match_delete_here (s : ustring) : option ustring :=
  if starts_with (u "删除") s || starts_with (u "退格") s then
    let (_, r) := span is_space (skipn 2 s) in
    match fst (span is_digit r) with
    | [] => None
    | ds => Some ds
    end
  else None.

(** [re.search] of the pattern: the match at the leftmost position. *)
Fixpoint search_delete (s : ustring) : option ustring :=
  match match_delete_here s with
  | Some ds => Some ds
  | None =>
      match s with
      | [] => None
      | _ :: s' => search_delete s'
      end
  end.

(** [CommandProcessor.parse_delete_n] *)
Definition parse_delete_n (text : ustring) : option Z :=
  match search_delete text with
  | Some ds => Some (int_of_digits ds)
  | None => None
  end.

(** [CommandProcessor.handle]: the processor after the call and the result. *)
Definition handle (self : CommandProcessor) (raw_text : ustring)
  : CommandProcessor * CommandResult :=
  let text := normalize raw_text in
  if mem text pause_phrases then
    ({| paused := true; history := history self |},
     mkResult true (u "⏸ 已暂停输入") (OStr []))
  else if mem text resume_phrases then
    ({| paused := false; history := history self |},
     mkResult true (u "▶️ 已恢复输入") (OStr []))
  else if paused self then
    (self, mkResult true (u "⏸(暂停中) " ++ raw_text) (OStr []))
  else if mem text enter_phrases then
    (self, mkResult true (u "↩️ 换行") (OTuple ENTER 1))
  else if mem text tab_phrases then
    (self, mkResult true (u "↹ TAB") (OTuple TAB 1))
  else if mem text esc_phrases then
    (self, mkResult true (u "⎋ ESC") (OTuple ESC 1))
  else
    match dict_get punc_map text with
    | Some symbol => (self, mkResult true (u "⌨️ " ++ text) (OStr symbol))
    | None =>
        if mem text undo_phrases then
          match deque_pop (history self) with
          | None => (self, mkResult true (u "⚠️ 没有可删除的内容") (OStr []))
          | Some (last, rest) =>
              ({| paused := paused self; history := rest |},
               mkResult true (u "⌫ 删除上一句：" ++ last)
                 (OTuple BACKSPACE (Z.of_nat (length last))))
          end
        else
          match parse_delete_n text with
          | Some n =>
              (self,
               mkResult true (u "⌫ 删除 " ++ str_of_int n ++ u " 个字")
                 (OTuple BACKSPACE n))
          | None =>
              if mem text clear_phrases then
                (self, mkResult true (u "🧹 清空") (OTuple BACKSPACE CLEAR_BACKSPACE_MAX))
              else (self, mkResult false raw_text (OStr raw_text))
          end
    end.

(** The string ["\n"]. *)
Definition NEWLINE : ustring := [10%N].

(** [CommandProcessor.record_output] *)
Definition record_output (self : CommandProcessor) (out : ustring) : CommandProcessor :=
  if negb (ustring_eqb out []) && negb (ustring_eqb out NEWLINE) then
    let out' := if 4000 <? length out then firstn 4000 out else out in
    {| paused := paused self;
       history := deque_append HISTORY_MAX_LEN (history self) out' |}
  else self.

(* ------------------------------------------------------------------ *)
(** ** The injector and the other effects *)

(** What a call of [handle_text] does to the outside, in program order.
    The first five are the injections: a text sent to the focused window
    ([send_unicode_text]), [n] presses of the backspace key, and one press
    of Enter, Tab or Escape. *)
Inductive event : Type :=
  | EvType (text : ustring)
  | EvBackspace (n : Z)
  | EvEnter
  | EvTab
  | EvEsc
  | EvClick
  | EvNotify (title message : ustring)
  | EvPrint (line : ustring).

Definition is_injection (e : event) : bool :=
  match e with
  | EvType _ | EvBackspace _ | EvEnter | EvTab | EvEsc => true
  | EvClick | EvNotify _ _ | EvPrint _ => false
  end.

(** A trace in which something is injected. *)
Definition injects (evs : list event) : bool := existsb is_injection evs.

(** [send_unicode_text]: nothing is sent for the empty string (the paste
    variant returns at once, the synthetic variant submits no event). *)
Definition send_unicode_text (text : ustring) : list event :=
  match text with
  | [] => []
  | _ :: _ => [EvType text]
  end.

(** [backspace] *)
Definition backspace (n : Z) : list event :=
  if (0 <? n)%Z then [EvBackspace n] else [].

Definition press_enter : list event := [EvEnter].
Definition press_tab : list event := [EvTab].
Definition press_esc : list event := [EvEsc].

(** [execute_output] *)
Definition execute_output (out : py_output) : list event :=
  match out with
  | OStr [] => []
  | OTuple BACKSPACE n => backspace n
  | OTuple ENTER _ => press_enter
  | OTuple TAB _ => press_tab
  | OTuple ESC _ => press_esc
  | OStr s => send_unicode_text s
  | ODict _ _ => []
  end.

(** [focus_target] *)
Definition focus_target : list event :=
  if negb FORCE_CLICK_BEFORE_TYPE then [] else [EvClick].

(* ------------------------------------------------------------------ *)
(** ** [InputService]: the dedup gate and [handle_text] *)

Record InputService : Type := mkService {
  processor : CommandProcessor;
  _last_msg : ustring;
  _last_time : Q
}.

(** [InputService.__init__] *)
Definition new_service : InputService :=
  {| processor := new_processor; _last_msg := []; _last_time := 0%Q |}.

Definition with_processor (self : InputService) (p : CommandProcessor) : InputService :=
  {| processor := p; _last_msg := _last_msg self; _last_time := _last_time self |}.

(** The test of [_server_dedup]:
    [text == self._last_msg and (now - self._last_time) < SERVER_DEDUP_WINDOW_SEC]. *)
Definition is_duplicate (self : InputService) (text : ustring) (now : Q) : bool :=
  ustring_eqb text (_last_msg self)
  && Qltb (now - _last_time self)%Q SERVER_DEDUP_WINDOW_SEC.

(** [InputService._server_dedup], with [now] the reading of [time.time()]:
    the returned boolean and the service after the call. *)
Definition _server_dedup (self : InputService) (text : ustring) (now : Q)
  : bool * InputService :=
  if is_duplicate self text now then (true, self)
  else (false, {| processor := processor self; _last_msg := text; _last_time := now |}).

(** The branch of [handle_text] for the text ["__TEST_INJECT__"]. *)
Definition test_inject : list event :=
  [EvNotify (u "测试注入") (u "请将鼠标放在记事本输入区，正在注入测试文本…")]
  ++ focus_target
  ++ send_unicode_text TEST_INJECT_TEXT
  ++ press_enter
  ++ send_unicode_text (u "✅ 如果你看到这行文字，说明 SendInput 注入成功！")
  ++ press_enter
  ++ [EvNotify (u "测试注入成功") (u "请查看记事本是否出现两行测试文本。")].

(** The end of [handle_text], from [result = self.processor.handle(text)]
    on: the interpreter is called, and its result is shown, or injected and
    then recorded. *)
Definition interpret_and_inject (self : InputService) (text : ustring)
  : InputService * list event :=
  let (p, result) := handle (processor self) text in
  if is_empty_output (output result) then
    (with_processor self p, [EvNotify (u "指令执行") (display_text result)])
  else
    let evs :=
      (if is_str (output result) then focus_target else [])
      ++ execute_output (output result) in
    match output result with
    | OStr s =>
        if negb (handled result) then (with_processor self (record_output p s), evs)
        else (with_processor self p, evs)
    | _ => (with_processor self p, evs)
    end.

(** [InputService.handle_text], with [now] the clock reading of the call:
    the service after the call and what the call did. *)
Definition handle_text (self : InputService) (text : ustring) (now : Q)
  : InputService * list event :=
  let text := strip text in
  match text with
  | [] => (self, [])
  | _ :: _ =>
      let (dup, self1) := _server_dedup self text now in
      if dup then (self1, [EvPrint (u "⏭️ 服务器去重：" ++ u " " ++ text)])
      else if ustring_eqb text (u "__TEST_INJECT__") then (self1, test_inject)
      else interpret_and_inject self1 text
  end.

(* ------------------------------------------------------------------ *)
(** ** The command-execution channel *)

(** Exceptions that leave a function. *)
Inductive exception : Type :=
  | ValueError (msg : ustring).

(** The outcome of a call that may raise. *)
Inductive result (A : Type) : Type :=
  | Return (a : A)
  | Raise (e : exception).
Arguments Return {A} a.
Arguments Raise {A} e.

Definition bind {A B : Type} (r : result A) (f : A -> result B) : result B :=
  match r with
  | Return a => f a
  | Raise e => Raise e
  end.

Notation "x <- r ;; k" := (bind r (fun x => k))
  (at level 61, r at next level, right associativity).

(** The states of [shlex.read_token] that [shlex.split(s, posix=False)]
    reaches: between tokens ([' ']), inside a word (['a']), inside a
    quotation opened by [q]. *)
Inductive lex_state : Type :=
  | LexSpace
  | LexWord
  | LexQuote (q : N).

(** [shlex.whitespace]: space, tab, carriage return, line feed. *)
Definition shlex_whitespace (c : N) : bool :=
  ((c =? 32) || (c =? 9) || (c =? 13) || (c =? 10))%N.

(** [shlex.quotes]: the single and the double quote. *)
Definition shlex_quotes (c : N) : bool := ((c =? 39) || (c =? 34))%N.

(** The tokens [shlex.split(s, posix=False)] yields from state [st] with
    [token] collected so far: [whitespace_split] is set, there are no
    comment and no escape characters.  A quotation opens only at the start
    of a token and keeps its quotes; the token ends with the closing quote.
    The end of the input inside a quotation raises [ValueError]. *)
Fixpoint shlex_tokens (st : lex_state) (token s : ustring) : result (list ustring) :=
  match s with
  | [] =>
      match st with
      | LexSpace => Return []
      | LexWord => Return [token]
      | LexQuote _ => Raise (ValueError (u "No closing quotation"))
      end
  | c :: s' =>
      match st with
      | LexSpace =>
          if shlex_whitespace c then shlex_tokens LexSpace [] s'
          else if shlex_quotes c then shlex_tokens (LexQuote c) [c] s'
          else shlex_tokens LexWord [c] s'
      | LexQuote q =>
          if (c =? q)%N then
            rest <- shlex_tokens LexSpace [] s' ;; Return ((token ++ [c]) :: rest)
          else shlex_tokens (LexQuote q) (token ++ [c]) s'
      | LexWord =>
          if shlex_whitespace c then
            rest <- shlex_tokens LexSpace [] s' ;; Return (token :: rest)
          else shlex_tokens LexWord (token ++ [c]) s'
      end
  end.

(** [shlex.split(s, posix=False)] *)
Definition shlex_split (s : ustring) : result (list ustring) :=
  shlex_tokens LexSpace [] s.

(** The value under ["command"]: absent or [None], a string, or a list of
    strings. *)
Inductive command_value : Type :=
  | CmdNone
  | CmdStr (s : ustring)
  | CmdList (l : list ustring).

(** One configured command, a dictionary with the keys ["match-string"],
    ["command"] and ["args"]; [None] stands for an absent key or the value
    [None]. *)
Record configured_command : Type := mkCommand {
  match_string : option ustring;
  command : command_value;
  args : option (list ustring)
}.

(** [s.strip()] is not empty. *)
Definition non_blank (s : ustring) : bool :=
  match strip s with
  | [] => false
  | _ :: _ => true
  end.

(** [_build_command_args] *)
Definition _build_command_args (command : command_value) (args : option (list ustring))
  : result (list ustring) :=
  parts <-
    match command with
    | CmdStr s => if non_blank s then shlex_split s else Return []
    | CmdList l => Return (filter non_blank l)
    | CmdNone => Return []
    end ;;
  match args with
  | Some l => Return (parts ++ filter non_blank l)
  | None => Return parts
  end.

(** [_match_command] *)
Definition _match_command (text : ustring) (commands : list configured_command)
  : option configured_command :=
  let text := strip text in
  match text with
  | [] => None
  | _ :: _ =>
      find
        (fun cmd =>
           let ms := strip (match match_string cmd with Some m => m | None => [] end) in
           non_blank ms && ustring_eqb ms text)
        commands
  end.

(** What [subprocess.run(args, capture_output=True, text=True)] does: the
    process ran and exited with a return code and a standard-error text, or
    the call raised [e] (here [str(e)]). *)
Inductive run_outcome : Type :=
  | Completed (returncode : Z) (stderr : ustring)
  | RunRaised (e : ustring).

(** [InputService.execute_command], with [run] for [subprocess.run] and
    [commands] for [self.get_commands() or []]. *)
Definition execute_command (run : list ustring -> run_outcome)
    (commands : list configured_command) (text : ustring) : result CommandResult :=
  match _match_command text commands with
  | None =>
      Return (mkResult true (u "未找到匹配指令：" ++ text)
                (ODict false (u "未找到匹配指令")))
  | Some cmd =>
      argv <- _build_command_args (command cmd) (args cmd) ;;
      match argv with
      | [] =>
          Return (mkResult true (u "命令配置错误：" ++ text)
                    (ODict false (u "命令配置错误")))
      | _ :: _ =>
          match run argv with
          | Completed returncode stderr =>
              let ok := (returncode =? 0)%Z in
              let stderr := strip stderr in
              let msg :=
                if ok then u "指令执行成功：" ++ text
                else
                  let msg := u "指令执行失败：" ++ text ++ u "（exit "
                             ++ str_of_int returncode ++ u "）" in
                  match stderr with
                  | [] => msg
                  | _ :: _ => msg ++ u " - " ++ stderr
                  end in
              Return (mkResult true msg (ODict ok msg))
          | RunRaised e =>
              Return (mkResult true (u "指令执行异常：" ++ text ++ u " - " ++ e)
                        (ODict false (u "指令执行异常：" ++ e)))
          end
      end
  end.

(** A configured command whose command string has an unclosed quotation. *)
Definition unclosed_quote_command : configured_command :=
  {| match_string := Some (u "x");
     command := CmdStr (u "echo 'hi");
     args := Some [] |}.

(* ------------------------------------------------------------------ *)
(** ** Vocabulary of the properties *)

(** The bounds the history keeps: at most [HISTORY_MAX_LEN] entries, each
    of at most 4000 characters. *)
Definition history_ok (h : list ustring) : Prop :=
  length h <= HISTORY_MAX_LEN /\ Forall (fun s => length s <= 4000) h.

(** A string [record_output] stores: not empty and not a bare line break. *)
Definition recordable (s : ustring) : bool :=
  negb (ustring_eqb s []) && negb (ustring_eqb s NEWLINE).

(** What [record_output] stores for [s]: [s[:4000]]. *)
Definition truncated (s : ustring) : ustring :=
  if 4000 <? length s then firstn 4000 s else s.

(** The call [handle_text(T)] at time [now] is stopped by the dedup gate:
    the text is not blank and [_server_dedup] reports a duplicate. *)
Definition suppressed (self : InputService) (T : ustring) (now : Q) : bool :=
  match strip T with
  | [] => false
  | text => is_duplicate self text now
  end.

(** A sequence of calls of [handle_text], each with its text and its clock
    reading: the service after the last one. *)
Definition run_calls (self : InputService) (calls : list (ustring * Q)) : InputService :=
  fold_left (fun s c => fst (handle_text s (fst c) (snd c))) calls self.

(** A sequence of calls of [handle]: the processor after the last one and
    the results, in order. *)
Fixpoint handle_all (self : CommandProcessor) (raws : list ustring)
  : CommandProcessor * list CommandResult :=
  match raws with
  | [] => (self, [])
  | raw :: raws' =>
      let (p, r) := handle self raw in
      let (p', rs) := handle_all p raws' in
      (p', r :: rs)
  end.

(* ------------------------------------------------------------------ *)
(** ** Sample inputs and reachable states *)

(** 301 distinct strings that [record_output] stores: the decimal numerals
    of 0 to 300. *)
Definition sample_strings : list ustring :=
  map (fun n => str_of_int (Z.of_nat n)) (seq 0 301).

(** A processor paused after it recorded ["hello"]. *)
Definition paused_processor : CommandProcessor :=
  fst (handle (record_output new_processor (u "hello")) (u "暂停")).

(** A call of [_server_dedup] on the slot of a reachable service: the text
    ["a"] was accepted at time 100 and comes again at time 101. *)
Definition service_after_a : InputService :=
  fst (handle_text new_service (u "a") (100 # 1)%Q).

(** Three calls with the text ["hello"], at times 100, 101 and 102. *)
Definition service_after_hello : InputService :=
  fst (handle_text new_service (u "hello") (100 # 1)%Q).
Definition service_after_hello_twice : InputService :=
  fst (handle_text service_after_hello (u "hello") (101 # 1)%Q).

(* ------------------------------------------------------------------ *)
(** ** [server.py]: the older copy of the interpreter, and the ports

    [server.py] holds an earlier copy of [CommandProcessor] and of
    [handle_text] (its state is module-global: one processor and one slot
    of the dedup gate, here the same [InputService] record), the choice of
    the ports, and the bookkeeping of [start_services] and
    [stop_services]. *)

Module server.

Definition FORCE_CLICK_BEFORE_TYPE : bool := true.
Definition DEFAULT_HTTP_PORT : Z := 8080.
Definition DEFAULT_WS_PORT : Z := 8765.
Definition MAX_PORT_TRY : nat := 50.

Definition enter_phrases : list ustring := [u "换行"; u "回车"; u "下一行"].

(** [CommandProcessor.handle] of [server.py]: it has no Tab and no Escape
    phrases and fewer line-break phrases. *)
Definition handle (self : CommandProcessor) (raw_text : ustring)
  : CommandProcessor * CommandResult :=
  let text := normalize raw_text in
  if mem text pause_phrases then
    ({| paused := true; history := history self |},
     mkResult true (u "⏸ 已暂停输入") (OStr []))
  else if mem text resume_phrases then
    ({| paused := false; history := history self |},
     mkResult true (u "▶️ 已恢复输入") (OStr []))
  else if paused self then
    (self, mkResult true (u "⏸(暂停中) " ++ raw_text) (OStr []))
  else if mem text enter_phrases then
    (self, mkResult true (u "↩️ 换行") (OTuple ENTER 1))
  else
    match dict_get punc_map text with
    | Some symbol => (self, mkResult true (u "⌨️ " ++ text) (OStr symbol))
    | None =>
        if mem text undo_phrases then
          match deque_pop (history self) with
          | None => (self, mkResult true (u "⚠️ 没有可删除的内容") (OStr []))
          | Some (last, rest) =>
              ({| paused := paused self; history := rest |},
               mkResult true (u "⌫ 删除上一句：" ++ last)
                 (OTuple BACKSPACE (Z.of_nat (length last))))
          end
        else
          match parse_delete_n text with
          | Some n =>
              (self,
               mkResult true (u "⌫ 删除 " ++ str_of_int n ++ u " 个字")
                 (OTuple BACKSPACE n))
          | None =>
              if mem text clear_phrases then
                (self, mkResult true (u "🧹 清空") (OTuple BACKSPACE CLEAR_BACKSPACE_MAX))
              else (self, mkResult false raw_text (OStr raw_text))
          end
    end.

(** [execute_output] of [server.py]: only the backspace and the Enter
    tuples are executed. *)
Definition execute_output (out : py_output) : list event :=
  match out with
  | OStr [] => []
  | OTuple BACKSPACE n => backspace n
  | OTuple ENTER _ => press_enter
  | OTuple _ _ => []
  | OStr s => send_unicode_text s
  | ODict _ _ => []
  end.

(** [focus_target] of [server.py]: a click at the position of the mouse. *)
Definition focus_target : list event :=
  if negb FORCE_CLICK_BEFORE_TYPE then [] else [EvClick].

Definition test_inject : list event :=
  [EvNotify (u "测试注入") (u "请将鼠标放在记事本输入区，正在注入测试文本…")]
  ++ focus_target
  ++ send_unicode_text TEST_INJECT_TEXT
  ++ press_enter
  ++ send_unicode_text (u "✅ 如果你看到这行文字，说明 SendInput 注入成功！")
  ++ press_enter
  ++ [EvNotify (u "测试注入成功") (u "请查看记事本是否出现两行测试文本。")].

(** [handle_text] of [server.py], with [server_dedup] (the same function
    as [_server_dedup]) and the global processor. *)
Definition handle_text (self : InputService) (text : ustring) (now : Q)
  : InputService * list event :=
  let text := strip text in
  match text with
  | [] => (self, [])
  | _ :: _ =>
      let (dup, self1) := _server_dedup self text now in
      if dup then (self1, [EvPrint (u "⏭️ 服务器去重：" ++ u " " ++ text)])
      else if ustring_eqb text (u "__TEST_INJECT__") then (self1, test_inject)
      else
        let (p, result) := handle (processor self1) text in
        if is_empty_output (output result) then
          (with_processor self1 p, [EvNotify (u "指令执行") (display_text result)])
        else
          let evs := focus_target ++ execute_output (output result) in
          match output result with
          | OStr s =>
              if negb (handled result)
              then (with_processor self1 (record_output p s), evs)
              else (with_processor self1 p, evs)
          | _ => (with_processor self1 p, evs)
          end
  end.

(** [s.split(sep)] for a separator of one character. *)
Fixpoint split_on (sep : N) (s : ustring) : list ustring :=
  match s with
  | [] => [[]]
  | c :: s' =>
      if (c =? sep)%N then [] :: split_on sep s'
      else
        match split_on sep s' with
        | h :: t => (c :: h) :: t
        | [] => [[c]]
        end
  end.

(** [\d{1,3}] at the start of [s], as the pattern of [is_valid_ipv4] can
    use it: what follows it in the pattern (a dot, or the end) matches no
    digit, so there is a match exactly when the run of digits at the
    start has one to three characters; the result is the rest of [s]. *)
Definition digits_1_3 (s : ustring) : option ustring :=
  let (ds, r) := span is_digit s in
  if (1 <=? length ds) && (length ds <=? 3) then Some r else None.

(** [\.\d{1,3}] at the start of [s]. *)
Definition dot_digits_1_3 (s : ustring) : option ustring :=
  match s with
  | c :: r => if (c =? 46)%N then digits_1_3 r else None
  | [] => None
  end.

(** [$] at [s]: the end of the string, or a line break that ends it. *)
Definition at_end (s : ustring) : bool :=
  match s with
  | [] => true
  | [c] => (c =? 10)%N
  | _ => false
  end.

(** [re.match(r"^\d{1,3}(\.\d{1,3}){3}$", ip)] matches. *)
Definition ipv4_pattern (ip : ustring) : bool :=
  match digits_1_3 ip with
  | Some r1 =>
      match dot_digits_1_3 r1 with
      | Some r2 =>
          match dot_digits_1_3 r2 with
          | Some r3 =>
              match dot_digits_1_3 r3 with
              | Some r4 => at_end r4
              | None => false
              end
          | None => false
          end
      | None => false
      end
  | None => false
  end.

(** [int(x)] for a part of a text that matched the pattern, which is a
    run of digits, followed by a line break in the last part: [int]
    ignores the white space around the digits.  [None] stands for the
    [ValueError] of any other text. *)
Definition int_of_part (x : ustring) : option Z :=
  match strip x with
  | [] => None
  | ds => if forallb is_digit ds then Some (int_of_digits ds) else None
  end.

(** [[int(x) for x in parts]], [None] when one [int] raises. *)
Fixpoint int_parts (parts : list ustring) : option (list Z) :=
  match parts with
  | [] => Some []
  | x :: parts' =>
      match int_of_part x, int_parts parts' with
      | Some n, Some nums => Some (n :: nums)
      | _, _ => None
      end
  end.

(** [is_valid_ipv4] *)
Definition is_valid_ipv4 (ip : ustring) : bool :=
  match ip with
  | [] => false
  | _ :: _ =>
      if negb (ipv4_pattern ip) then false
      else
        match int_parts (split_on 46 ip) with
        | None => false
        | Some nums => forallb (fun n => (0 <=? n)%Z && (n <=? 255)%Z) nums
        end
  end.

(** [is_candidate_ipv4] *)
Definition is_candidate_ipv4 (ip : ustring) : bool :=
  if negb (is_valid_ipv4 ip) then false
  else if starts_with (u "127.") ip || starts_with (u "0.") ip
          || starts_with (u "169.254.") ip then false
  else true.

(** The loop that ends [parse_windows_ipconfig] and [get_ipv4_candidates]:
    an entry [(label, ip)] is appended to [dedup] when its address is not
    in [seen]. *)
Definition keep_first (st : list ustring * list (ustring * ustring))
    (c : ustring * ustring) : list ustring * list (ustring * ustring) :=
  let (seen, dedup) := st in
  if mem (snd c) seen then st else (snd c :: seen, dedup ++ [c]).

Definition dedup_by_ip (l : list (ustring * ustring))
  : list (ustring * ustring) :=
  snd (fold_left keep_first l ([], [])).

(** [parse_windows_ipconfig], from the pairs of an adapter name and an
    address that its two patterns find in the output of [ipconfig], in
    the order of the lines ([found] is empty when the command fails or
    prints nothing). *)
Definition parse_windows_ipconfig (is_windows : bool)
    (found : list (ustring * ustring)) : list (ustring * ustring) :=
  if negb is_windows then []
  else
    dedup_by_ip
      (flat_map
         (fun m =>
            let ip := strip (snd m) in
            if is_candidate_ipv4 ip then [(fst m ++ u " - " ++ ip, ip)] else [])
         found).

Definition loopback_entry : ustring * ustring :=
  (u "本机回环（仅本机可用） - 127.0.0.1", u "127.0.0.1").

(** The list [candidates] of [get_ipv4_candidates] before the duplicates
    are removed.  [host_ips] holds the addresses [getaddrinfo] gives for
    the host name, [None] when the lookup raises; [ip2] is the result of
    [get_lan_ip_best_effort]. *)
Definition ipv4_candidates (is_windows : bool)
    (found : list (ustring * ustring)) (hostname : ustring)
    (host_ips : option (list ustring)) (ip2 : ustring)
  : list (ustring * ustring) :=
  (if is_windows then parse_windows_ipconfig is_windows found else [])
  ++ match host_ips with
     | Some ips =>
         flat_map
           (fun ip =>
              if is_candidate_ipv4 ip then [(hostname ++ u " - " ++ ip, ip)]
              else [])
           ips
     | None => []
     end
  ++ (if is_candidate_ipv4 ip2
      then [(u "自动推荐（默认出口） - " ++ ip2, ip2)] else []).

(** [get_ipv4_candidates] *)
Definition get_ipv4_candidates (is_windows : bool)
    (found : list (ustring * ustring)) (hostname : ustring)
    (host_ips : option (list ustring)) (ip2 : ustring)
  : list (ustring * ustring) :=
  match dedup_by_ip (ipv4_candidates is_windows found hostname host_ips ip2) with
  | [] => [loopback_entry]
  | dedup => dedup
  end.

(** The outcome of [choose_free_port]: a port, or the [RuntimeError] with
    its message. *)
Inductive port_choice : Type :=
  | PortFound (port : Z)
  | RuntimeError (msg : ustring).

(** [choose_free_port], with [is_port_free] the outcome of the bind probe
    of each port (a port is probed at most once in a call). *)
Definition choose_free_port (is_port_free : Z -> bool) (start_port : Z) : port_choice :=
  match find is_port_free
          (map (fun i => (start_port + Z.of_nat i)%Z) (seq 0 MAX_PORT_TRY)) with
  | Some p => PortFound p
  | None =>
      RuntimeError (u "找不到可用端口（从 " ++ str_of_int start_port ++ u " 起尝试 "
                    ++ str_of_int (Z.of_nat MAX_PORT_TRY) ++ u " 个）")
  end.

(** The globals that [start_services] and [stop_services] assign under
    [SERVICE_LOCK] or reset: the ports, the two URLs and the running flag
    ([None] is Python's [None]).  The server objects and the threads are
    not part of this record. *)
Record ServiceState : Type := mkState {
  HTTP_PORT : option Z;
  WS_PORT : option Z;
  QR_URL : option ustring;
  QR_PAYLOAD_URL : option ustring;
  SERVICE_RUNNING : bool
}.

(** The globals when the module is loaded. *)
Definition initial_state : ServiceState :=
  {| HTTP_PORT := None; WS_PORT := None; QR_URL := None; QR_PAYLOAD_URL := None;
     SERVICE_RUNNING := false |}.

(** [get_effective_ip], with [USER_IP] and the address that
    [get_lan_ip_best_effort] finds. *)
Definition get_effective_ip (USER_IP : option ustring) (lan_ip : ustring) : ustring :=
  match USER_IP with
  | Some ip => if non_blank ip then strip ip else lan_ip
  | None => lan_ip
  end.

(** The part of [start_services] that runs under the lock: the state after
    it, and the error message when it raises.  An assignment that follows
    a call that raises is not made. *)
Definition start_services (is_port_free : Z -> bool) (ip : ustring) (st : ServiceState)
  : ServiceState * option ustring :=
  if SERVICE_RUNNING st then (st, None)
  else
    match choose_free_port is_port_free DEFAULT_HTTP_PORT with
    | RuntimeError msg => (st, Some msg)
    | PortFound http =>
        let st1 := {| HTTP_PORT := Some http; WS_PORT := WS_PORT st;
                      QR_URL := QR_URL st; QR_PAYLOAD_URL := QR_PAYLOAD_URL st;
                      SERVICE_RUNNING := false |} in
        match choose_free_port is_port_free DEFAULT_WS_PORT with
        | RuntimeError msg => (st1, Some msg)
        | PortFound ws =>
            let url := u "http://" ++ ip ++ u ":" ++ str_of_int http in
            ({| HTTP_PORT := Some http; WS_PORT := Some ws;
                QR_URL := Some url;
                QR_PAYLOAD_URL := Some (url ++ u "?ws=" ++ str_of_int ws);
                SERVICE_RUNNING := true |}, None)
        end
    end.

(** What [stop_services] does to these globals. *)
Definition stop_services (st : ServiceState) : ServiceState :=
  if negb (SERVICE_RUNNING st) then st
  else {| HTTP_PORT := None; WS_PORT := None; QR_URL := None; QR_PAYLOAD_URL := None;
          SERVICE_RUNNING := false |}.

End server.

(** The key phrases that [lanvi_input.py] has and [server.py] lacks. *)
Definition newer_phrases : list ustring :=
  [u "enter"; u "ENTER"; u "回车键"; u "enter键"; u "Enter"]
  ++ tab_phrases ++ esc_phrases.

(* ------------------------------------------------------------------ *)
(** ** [lanvi_transport.py]: the HTTP and the WebSocket handlers *)

(** A value under a key of a JSON object, as the handlers use it: absent
    or [null] ([dict.get] gives [None]), a string, or a value of another
    type, of which the handlers use the truth value and [str()]. *)
Inductive field : Type :=
  | FNone
  | FStr (s : ustring)
  | FOther (truth : bool) (str : ustring).

(** The value is true in a condition ([v or ...]). *)
Definition truthy (f : field) : bool :=
  match f with
  | FNone => false
  | FStr [] => false
  | FStr (_ :: _) => true
  | FOther b _ => b
  end.

(** [str(content or "")] *)
Definition str_or_empty (f : field) : ustring :=
  if truthy f then
    match f with
    | FStr s => s
    | FOther _ t => t
    | FNone => []
    end
  else [].

(** The dictionary [{"type": "cmd_result", "string": .., "ok": ..,
    "message": ..}] that both handlers answer a command with. *)
Record cmd_result : Type := mkCmdResult {
  result_string : ustring;
  result_ok : bool;
  result_message : ustring
}.

(** An exception that leaves a handler: the [AttributeError] of [.strip()]
    on a value that is no string, or an exception of [execute_command]. *)
Inductive transport_error : Type :=
  | AttributeError
  | Escaped (e : exception).

(** The answer built from the result of [execute_command]:
    [bool(output.get("ok"))] and [output.get("message")] when the output
    is a dictionary, [False] and the display text otherwise. *)
Definition cmd_result_of (text : ustring) (r : CommandResult) : cmd_result :=
  match output r with
  | ODict ok message => mkCmdResult text ok message
  | _ => mkCmdResult text false (display_text r)
  end.

(** What [send_http] reads of a request: the keys ["type"] and ["string"]
    of the JSON body (both absent when the body is no JSON object) and of
    the form. *)
Record http_request : Type := mkRequest {
  json_type : field;
  json_string : field;
  form_type : option ustring;
  form_string : option ustring
}.

Inductive http_response : Type :=
  | BadRequest
  | HttpCmdResult (r : cmd_result)
  | HttpOk.

(** [(data.get("type") or request.form.get("type") or "text").strip()];
    [None] stands for the [AttributeError] of a true value that is no
    string. *)
Definition http_msg_type (r : http_request) : option ustring :=
  if truthy (json_type r) then
    match json_type r with
    | FStr s => Some (strip s)
    | _ => None
    end
  else
    match form_type r with
    | Some (c :: s) => Some (strip (c :: s))
    | _ => Some (strip (u "text"))
    end.

(** [str(content or "").strip()], with [content] the JSON value or, when
    that is [None], the form value. *)
Definition http_text (r : http_request) : ustring :=
  strip
    match json_string r with
    | FNone =>
        match form_string r with
        | Some s => s
        | None => []
        end
    | f => str_or_empty f
    end.

(** The route [POST /send]: the service after the request, its effects,
    and the response or the exception. *)
Definition send_http (run : list ustring -> run_outcome)
    (commands : list configured_command) (svc : InputService)
    (r : http_request) (now : Q)
  : InputService * list event * (transport_error + http_response) :=
  match http_msg_type r with
  | None => (svc, [], inl AttributeError)
  | Some msg_type =>
      match http_text r with
      | [] => (svc, [], inr BadRequest)
      | text =>
          if ustring_eqb msg_type (u "cmd") then
            match execute_command run commands text with
            | Raise e => (svc, [], inl (Escaped e))
            | Return result => (svc, [], inr (HttpCmdResult (cmd_result_of text result)))
            end
          else
            let (svc', evs) := handle_text svc text now in
            (svc', evs, inr HttpOk)
      end
  end.

(** What [json.loads] makes of a frame: an error, a value that is no
    object, or an object with its keys ["type"] and ["string"]. *)
Inductive json_payload : Type :=
  | JsonInvalid
  | JsonNotObject
  | JsonObject (type_ string_ : field).

(** The message type and the content that [ws_handler] reads from a
    stripped frame. *)
Definition ws_parse (loads : ustring -> json_payload) (msg : ustring)
  : ustring * field :=
  if starts_with (u "{") msg then
    match loads msg with
    | JsonObject ty st =>
        if truthy ty then
          match ty with
          | FStr s => (strip s, st)
          | _ => (u "text", FStr msg)
          end
        else (strip (u "text"), st)
    | _ => (u "text", FStr msg)
    end
  else (u "text", FStr msg).

(** One turn of the loop of [ws_handler], for one text frame: the service
    after it, its effects, and the frame sent back if any, or the
    exception that ends the loop. *)
Definition ws_on_message (loads : ustring -> json_payload)
    (run : list ustring -> run_outcome) (commands : list configured_command)
    (svc : InputService) (msg : ustring) (now : Q)
  : InputService * list event * (transport_error + option cmd_result) :=
  match strip msg with
  | [] => (svc, [], inr None)
  | msg =>
      let received := EvPrint (u "收到：" ++ u " " ++ msg) in
      let (msg_type, content) := ws_parse loads msg in
      if ustring_eqb msg_type (u "cmd") then
        let text := strip (str_or_empty content) in
        match execute_command run commands text with
        | Raise e => (svc, [received], inl (Escaped e))
        | Return result => (svc, [received], inr (Some (cmd_result_of text result)))
        end
      else
        let (svc', evs) := handle_text svc (str_or_empty content) now in
        (svc', received :: evs, inr None)
  end.

(* ------------------------------------------------------------------ *)
(** ** The synthetic injector of [lanvi_input.py] (the Windows variant) *)

Module win.

Definition INPUT_KEYBOARD : Z := 1.
Definition KEYEVENTF_KEYUP : Z := 0x0002.
Definition KEYEVENTF_UNICODE : Z := 0x0004.
Definition VK_BACK : Z := 0x08.
Definition VK_TAB : Z := 0x09.
Definition VK_RETURN : Z := 0x0D.
Definition VK_ESCAPE : Z := 0x1B.

(** The value a [WORD] field of a [ctypes] structure holds after [n] is
    stored in it: the low 16 bits. *)
Definition WORD (n : Z) : Z := n mod 2 ^ 16.

(** The value a [DWORD] field holds: the low 32 bits. *)
Definition DWORD (n : Z) : Z := n mod 2 ^ 32.

Record KEYBDINPUT : Type := mkKey {
  wVk : Z;
  wScan : Z;
  dwFlags : Z;
  time : Z;
  dwExtraInfo : Z
}.

(** [INPUT(type=.., ki=..)] *)
Record INPUT : Type := mkInput {
  type : Z;
  ki : KEYBDINPUT
}.

Definition keyboard_input (vk scan flags : Z) : INPUT :=
  {| type := DWORD INPUT_KEYBOARD;
     ki := {| wVk := WORD vk; wScan := WORD scan; dwFlags := DWORD flags;
              time := 0; dwExtraInfo := 0 |} |}.

(** The array that [send_unicode_text] gives to [_send_input]: for each
    character a key-down and a key-up event that carry [ord(ch)] in the
    scan field. *)
Definition send_unicode_text (text : ustring) : list INPUT :=
  flat_map
    (fun ch =>
       let code := Z.of_N ch in
       [keyboard_input 0 code KEYEVENTF_UNICODE;
        keyboard_input 0 code (Z.lor KEYEVENTF_UNICODE KEYEVENTF_KEYUP)])
    text.

(** The arrays [press_vk] gives to [_send_input], one per press. *)
Definition press_vk (vk_code : Z) (times : Z) : list (list INPUT) :=
  repeat [keyboard_input vk_code 0 0; keyboard_input vk_code 0 KEYEVENTF_KEYUP]
    (Z.to_nat times).

(** [backspace] *)
Definition backspace (n : Z) : list (list INPUT) :=
  if (0 <? n)%Z then press_vk VK_BACK n else [].

(** [_send_input]: it raises when [SendInput] reports a number of events
    other than the number submitted. *)
Definition _send_input (sent : nat) (inputs : list INPUT) : bool :=
  sent =? length inputs.

(** The event is a key release. *)
Definition is_key_up (e : INPUT) : bool := Z.testbit (dwFlags (ki e)) 1.

(** The characters a receiver reads from a batch: the scan codes of the
    key-down events. *)
Definition typed_codes (inputs : list INPUT) : list Z :=
  map (fun e => wScan (ki e)) (filter (fun e => negb (is_key_up e)) inputs).

End win.

(* ------------------------------------------------------------------ *)
(** ** [server.py]: the configuration file *)

(** The value under ["commands"]: no list, or a list whose items are
    dictionaries ([Some]) or other values ([None]). *)
Inductive raw_commands : Type :=
  | RawNotList
  | RawList (items : list (option configured_command)).

(** A value read from a configuration file: a dictionary, of which the
    code reads the keys ["user_ip"] and ["commands"], or another value. *)
Inductive config_json : Type :=
  | CfgOther
  | CfgDict (user_ip : field) (commands : raw_commands).

Inductive config_path : Type :=
  | CONFIG_PATH_PRIMARY
  | CONFIG_PATH_FALLBACK.

(** [_normalize_commands] *)
Definition _normalize_commands (raw : raw_commands) : list configured_command :=
  match raw with
  | RawNotList => []
  | RawList items =>
      flat_map (fun c => match c with Some d => [d] | None => [] end) items
  end.

(** The globals that [load_config] and [save_config] assign.  The other
    keys of [CONFIG_DATA], which [save_config] writes back as they are,
    are not part of this record. *)
Record ConfigState : Type := mkConfig {
  USER_IP : option ustring;
  COMMANDS : list configured_command;
  CONFIG_PATH_IN_USE : config_path
}.

(** What [save_config] puts under ["user_ip"] and ["commands"]. *)
Definition config_data : Type := (option ustring * list configured_command)%type.

(** [save_config]: the state after it and the file it wrote, if any.
    [can_write path] tells whether [_try_write_json] succeeds on [path]. *)
Definition save_config (can_write : config_path -> bool) (st : ConfigState)
  : ConfigState * list (config_path * config_data) :=
  let data := (USER_IP st, COMMANDS st) in
  if can_write CONFIG_PATH_PRIMARY then
    ({| USER_IP := USER_IP st; COMMANDS := COMMANDS st;
        CONFIG_PATH_IN_USE := CONFIG_PATH_PRIMARY |},
     [(CONFIG_PATH_PRIMARY, data)])
  else if can_write CONFIG_PATH_FALLBACK then
    ({| USER_IP := USER_IP st; COMMANDS := COMMANDS st;
        CONFIG_PATH_IN_USE := CONFIG_PATH_FALLBACK |},
     [(CONFIG_PATH_FALLBACK, data)])
  else (st, []).

(** [ip = (data.get("user_ip") or "").strip()] followed by
    [ip if ip else None]; the outer [None] stands for the
    [AttributeError] of a true value that is no string. *)
Definition read_user_ip (f : field) : option (option ustring) :=
  if truthy f then
    match f with
    | FStr s =>
        Some match strip s with
             | [] => None
             | ip => Some ip
             end
    | _ => None
    end
  else Some None.

(** The assignments of [load_config] from a dictionary read at [path], in
    their order: [COMMANDS], then [USER_IP] and [CONFIG_PATH_IN_USE]
    unless reading the address raises. *)
Definition load_from (path : config_path) (user_ip : field)
    (commands : raw_commands) (st : ConfigState)
  : ConfigState * option transport_error :=
  match read_user_ip user_ip with
  | None =>
      ({| USER_IP := USER_IP st; COMMANDS := _normalize_commands commands;
          CONFIG_PATH_IN_USE := CONFIG_PATH_IN_USE st |},
       Some AttributeError)
  | Some ip =>
      ({| USER_IP := ip; COMMANDS := _normalize_commands commands;
          CONFIG_PATH_IN_USE := path |},
       None)
  end.

(** [load_config]: the state after it, the file it wrote, if any, and the
    exception it raises, if any.  [read path] is the result of
    [_try_read_json]: [None] when the file is absent or cannot be read or
    parsed. *)
Definition load_config (read : config_path -> option config_json)
    (can_write : config_path -> bool) (st : ConfigState)
  : ConfigState * list (config_path * config_data) * option transport_error :=
  match read CONFIG_PATH_PRIMARY with
  | Some (CfgDict user_ip commands) =>
      let (st', e) := load_from CONFIG_PATH_PRIMARY user_ip commands st in
      (st', [], e)
  | _ =>
      match read CONFIG_PATH_FALLBACK with
      | Some (CfgDict user_ip commands) =>
          let (st', e) := load_from CONFIG_PATH_FALLBACK user_ip commands st in
          (st', [], e)
      | _ =>
          (save_config can_write
             {| USER_IP := None; COMMANDS := [];
                CONFIG_PATH_IN_USE := CONFIG_PATH_IN_USE st |},
           None)
      end
  end.

(** The value is a dictionary. *)
Definition is_config_dict (v : option config_json) : bool :=
  match v with
  | Some (CfgDict _ _) => true
  | _ => false
  end.

(* ------------------------------------------------------------------ *)
(** ** Further vocabulary *)

(** The normalized text [t] is free text for [handle]: none of its phrase
    lists holds it, it is no key of [punc_map] and the delete-N pattern is
    not found in it. *)
Definition free_text (t : ustring) : bool :=
  negb (mem t pause_phrases) && negb (mem t resume_phrases)
  && negb (mem t enter_phrases) && negb (mem t tab_phrases)
  && negb (mem t esc_phrases)
  && match dict_get punc_map t with Some _ => false | None => true end
  && negb (mem t undo_phrases)
  && match parse_delete_n t with Some _ => false | None => true end
  && negb (mem t clear_phrases).

(** [handle] reaches its undo branch: the processor is active and the
    normalized text is an undo phrase. *)
Definition undo_call (p : CommandProcessor) (raw : ustring) : bool :=
  negb (paused p) && mem (normalize raw) undo_phrases.


(** What the injector is never asked for: an empty text, a number of
    backspaces that is not positive, a mouse click (the module keeps
    [FORCE_CLICK_BEFORE_TYPE] off). *)
Definition well_formed_event (e : event) : Prop :=
  match e with
  | EvType text => text <> []
  | EvBackspace n => (0 < n)%Z
  | EvClick => False
  | _ => True
  end.

(** A process runner for the samples: every process exits with code 0 and
    writes nothing. *)
Definition run_ok (argv : list ustring) : run_outcome := Completed 0 [].

(** A configured command given as a list. *)
Definition list_command : configured_command :=
  {| match_string := Some (u " lock ");
     command := CmdList [u "pmset"; u "displaysleepnow"];
     args := None |}.

(** Port probes for the samples: only port 8080 is taken; and every port
    from 8765 on is taken. *)
Definition only_8080_taken (q : Z) : bool := negb (q =? 8080)%Z.
Definition ws_ports_taken (q : Z) : bool := (q <? 8765)%Z.

(** The outcome of a WebSocket turn that corresponds to an outcome of the
    HTTP route: the command result is the frame sent back, and no frame is
    sent otherwise. *)
Definition reply_of (r : transport_error + http_response)
  : transport_error + option cmd_result :=
  match r with
  | inl e => inl e
  | inr (HttpCmdResult c) => inr (Some c)
  | inr _ => inr None
  end.

(** A string between double quotes. *)
Definition quoted (s : ustring) : ustring := [34%N] ++ s ++ [34%N].

(** The frame [{"type":"cmd","string":"X"}]. *)
Definition frame_cmd_X : ustring :=
  u "{" ++ quoted (u "type") ++ u ":" ++ quoted (u "cmd") ++ u ","
  ++ quoted (u "string") ++ u ":" ++ quoted (u "X") ++ u "}".

(** The frame [{"string":"hi"}]. *)
Definition frame_hi : ustring :=
  u "{" ++ quoted (u "string") ++ u ":" ++ quoted (u "hi") ++ u "}".

(** [json.loads] on the sample frames; any other text is taken as no JSON. *)
Definition sample_loads (msg : ustring) : json_payload :=
  if ustring_eqb msg frame_cmd_X then JsonObject (FStr (u "cmd")) (FStr (u "X"))
  else if ustring_eqb msg frame_hi then JsonObject FNone (FStr (u "hi"))
  else JsonInvalid.

(** One to three decimal digits. *)
Definition digit_group (a : ustring) : Prop :=
  forallb is_digit a = true /\ 1 <= length a <= 3.

(* ================================================================== *)
(** * Properties *)

(** ** Strings and membership *)

Lemma ustring_eqb_eq (a b : ustring) : ustring_eqb a b = true <-> a = b.
Proof.
  revert b; induction a as [|x a IH]; intros [|y b]; simpl; try easy.
  rewrite andb_true_iff, N.eqb_eq, IH. split.
  - intros [-> ->]; reflexivity.
  - intros E; injection E; auto.
Qed.

Lemma ustring_eqb_refl (a : ustring) : ustring_eqb a a = true.
Proof. now apply ustring_eqb_eq. Qed.

Lemma ustring_eqb_neq (a b : ustring) : ustring_eqb a b = false <-> a <> b.
Proof.
  rewrite <- ustring_eqb_eq. destruct (ustring_eqb a b); split; congruence.
Qed.

Lemma mem_In (x : ustring) (l : list ustring) : mem x l = true <-> In x l.
Proof.
  unfold mem. rewrite existsb_exists. split.
  - intros (y & Hy & E). apply ustring_eqb_eq in E. now subst.
  - intros H. exists x. split; [assumption | apply ustring_eqb_refl].
Qed.

Lemma Qltb_lt (a b : Q) : Qltb a b = true <-> (a < b)%Q.
Proof. unfold Qltb, Qlt. apply Z.ltb_lt. Qed.


(** ** The deque *)

Lemma deque_append_length {A : Type} (m : nat) (d : list A) (x : A) :
  length d <= m -> length (deque_append m d x) <= m.
Proof.
  intros H. unfold deque_append.
  destruct (Nat.ltb_spec m (length (d ++ [x]))) as [L|L]; [|exact L].
  rewrite length_app in L. simpl in L.
  destruct d as [|a d]; simpl in *; [lia|].
  rewrite length_app. simpl. lia.
Qed.

Lemma deque_append_Forall {A : Type} (P : A -> Prop) (m : nat) (d : list A) (x : A) :
  Forall P d -> P x -> Forall P (deque_append m d x).
Proof.
  intros Hd Hx. unfold deque_append.
  assert (F : Forall P (d ++ [x])) by (apply Forall_app; auto).
  destruct (m <? length (d ++ [x])); [|exact F].
  destruct (d ++ [x]); simpl; [constructor|]. now inversion F.
Qed.

Lemma deque_append_skipn {A : Type} (m : nat) (d : list A) (x : A) :
  length d <= m ->
  deque_append m d x = skipn (length (d ++ [x]) - m) (d ++ [x]).
Proof.
  intros H. unfold deque_append. rewrite length_app. simpl.
  destruct (Nat.ltb_spec m (length d + 1)) as [L|L].
  - replace (length d + 1 - m) with 1 by lia.
    destruct (d ++ [x]); reflexivity.
  - replace (length d + 1 - m) with 0 by lia. reflexivity.
Qed.

(** Appending a whole list to a deque keeps its last [m] elements. *)
Lemma deque_append_all {A : Type} (m : nat) (l d : list A) :
  length d <= m ->
  fold_left (deque_append m) l d = skipn (length (d ++ l) - m) (d ++ l).
Proof.
  revert d; induction l as [|x l IH]; intros d H; simpl.
  - rewrite app_nil_r. replace (length d - m) with 0 by lia. reflexivity.
  - rewrite IH by (now apply deque_append_length).
    rewrite deque_append_skipn by assumption.
    set (e := d ++ [x]). set (k := length e - m).
    replace (d ++ x :: l) with (e ++ l) by (unfold e; now rewrite <- app_assoc).
    assert (E : skipn k e ++ l = skipn k (e ++ l)).
    { rewrite skipn_app. replace (k - length e) with 0 by (unfold k; lia).
      reflexivity. }
    rewrite E, skipn_skipn. f_equal.
    rewrite length_skipn, !length_app. unfold k. lia.
Qed.

Lemma deque_pop_None {A : Type} (d : list A) : deque_pop d = None <-> d = [].
Proof.
  unfold deque_pop. split.
  - destruct (rev d) eqn:E; [|discriminate]. intros _.
    apply (f_equal (@rev A)) in E. now rewrite rev_involutive in E.
  - intros ->. reflexivity.
Qed.

Lemma deque_pop_Some {A : Type} (d r : list A) (x : A) :
  deque_pop d = Some (x, r) <-> d = r ++ [x].
Proof.
  unfold deque_pop. split.
  - destruct (rev d) as [|y t] eqn:E; [discriminate|].
    intros H; injection H as -> <-.
    apply (f_equal (@rev A)) in E. rewrite rev_involutive in E. exact E.
  - intros ->. rewrite rev_app_distr. simpl. now rewrite rev_involutive.
Qed.

Lemma deque_pop_app {A : Type} (d : list A) (x : A) :
  deque_pop (d ++ [x]) = Some (x, d).
Proof. now apply deque_pop_Some. Qed.

(** ** The history and its bounds *)

Lemma truncated_length (s : ustring) : length (truncated s) <= 4000.
Proof.
  unfold truncated. destruct (Nat.ltb_spec 4000 (length s)) as [L|L].
  - rewrite length_firstn. lia.
  - exact L.
Qed.

Lemma record_output_history (p : CommandProcessor) (s : ustring) :
  history (record_output p s) =
  if recordable s then deque_append HISTORY_MAX_LEN (history p) (truncated s)
  else history p.
Proof.
  unfold record_output, recordable, truncated.
  destruct (negb (ustring_eqb s []) && negb (ustring_eqb s NEWLINE)); reflexivity.
Qed.

Lemma record_output_paused (p : CommandProcessor) (s : ustring) :
  paused (record_output p s) = paused p.
Proof.
  unfold record_output.
  destruct (negb (ustring_eqb s []) && negb (ustring_eqb s NEWLINE)); reflexivity.
Qed.

Lemma record_output_ok (p : CommandProcessor) (s : ustring) :
  history_ok (history p) -> history_ok (history (record_output p s)).
Proof.
  intros [Hlen Hall]. rewrite record_output_history.
  destruct (recordable s); [|now split].
  split.
  - now apply deque_append_length.
  - apply deque_append_Forall; [assumption | apply truncated_length].
Qed.

(** [handle] leaves the history as it is or removes its last entry. *)
Lemma handle_history (p : CommandProcessor) (raw : ustring) :
  history (fst (handle p raw)) = history p
  \/ exists last, history p = history (fst (handle p raw)) ++ [last].
Proof.
  unfold handle.
  repeat match goal with
         | |- context [if ?c then _ else _] => destruct c
         | |- context [match dict_get ?d ?k with _ => _ end] =>
             destruct (dict_get d k)
         | |- context [match parse_delete_n ?t with _ => _ end] =>
             destruct (parse_delete_n t)
         | |- context [match deque_pop ?d with _ => _ end] =>
             destruct (deque_pop d) as [[? ?]|] eqn:E
         end; simpl; auto.
  right. eexists. apply deque_pop_Some. eassumption.
Qed.

Lemma handle_ok (p : CommandProcessor) (raw : ustring) :
  history_ok (history p) -> history_ok (history (fst (handle p raw))).
Proof.
  intros [Hlen Hall].
  destruct (handle_history p raw) as [E | [last E]].
  - rewrite E. now split.
  - rewrite E in Hlen, Hall. rewrite length_app in Hlen.
    apply Forall_app in Hall. split; [lia | tauto].
Qed.

Lemma interpret_and_inject_ok (s : InputService) (text : ustring) :
  history_ok (history (processor s)) ->
  history_ok (history (processor (fst (interpret_and_inject s text)))).
Proof.
  intros H. unfold interpret_and_inject.
  pose proof (handle_ok (processor s) text H) as Hp.
  destruct (handle (processor s) text) as [p r]. simpl in Hp.
  destruct (is_empty_output (output r)); [exact Hp|].
  destruct (output r); simpl; try exact Hp.
  destruct (negb (handled r)); simpl; [|exact Hp].
  now apply record_output_ok.
Qed.

Lemma handle_text_ok (s : InputService) (text : ustring) (now : Q) :
  history_ok (history (processor s)) ->
  history_ok (history (processor (fst (handle_text s text now)))).
Proof.
  intros H. unfold handle_text, _server_dedup.
  destruct (strip text) as [|c t]; [exact H|].
  destruct (is_duplicate s (c :: t) now); [exact H|].
  destruct (ustring_eqb (c :: t) (u "__TEST_INJECT__")); [exact H|].
  now apply interpret_and_inject_ok.
Qed.

Lemma run_calls_ok (calls : list (ustring * Q)) (s : InputService) :
  history_ok (history (processor s)) ->
  history_ok (history (processor (run_calls s calls))).
Proof.
  revert s; induction calls as [|[text now] calls IH]; intros s H; simpl.
  - exact H.
  - apply IH. now apply handle_text_ok.
Qed.

(** Recording a list of strings that are all stored appends their
    truncations to the deque. *)
Lemma record_all_history (l : list ustring) (p : CommandProcessor) :
  forallb recordable l = true ->
  history (fold_left record_output l p) =
  fold_left (deque_append HISTORY_MAX_LEN) (map truncated l) (history p).
Proof.
  revert p; induction l as [|s l IH]; intros p H; simpl in *.
  - reflexivity.
  - apply andb_true_iff in H as [Hs Hl].
    rewrite IH by assumption. rewrite record_output_history, Hs. reflexivity.
Qed.

(** C4. The history never holds more than 300 entries nor an entry longer
    than 4000 characters: this holds for a new processor, is kept by
    [record_output], by [handle] (whose undo pops an entry) and by
    [handle_text], hence holds after any sequence of calls of a new
    service.  Recording a list of stored strings leaves the last 300 of
    them (truncated), and for 301 strings exactly all but the first, in
    order, so the oldest is the one evicted. *)
Theorem history_bounded_fifo :
  history_ok (history new_processor)
  /\ (forall p out, history_ok (history p) -> history_ok (history (record_output p out)))
  /\ (forall p raw, history_ok (history p) -> history_ok (history (fst (handle p raw))))
  /\ (forall s text now,
        history_ok (history (processor s)) ->
        history_ok (history (processor (fst (handle_text s text now)))))
  /\ (forall calls, history_ok (history (processor (run_calls new_service calls))))
  /\ (forall l,
        forallb recordable l = true ->
        history (fold_left record_output l new_processor)
        = skipn (length l - HISTORY_MAX_LEN) (map truncated l))
  /\ (forall l,
        length l = 301 -> forallb recordable l = true ->
        history (fold_left record_output l new_processor) = map truncated (tl l)).
Proof.
  assert (H0 : history_ok (history new_processor)).
  { split; simpl; [unfold HISTORY_MAX_LEN; lia | constructor]. }
  assert (Hall : forall l,
             forallb recordable l = true ->
             history (fold_left record_output l new_processor)
             = skipn (length l - HISTORY_MAX_LEN) (map truncated l)).
  { intros l Hl. rewrite record_all_history by assumption.
    rewrite deque_append_all by (simpl; lia).
    simpl. now rewrite length_map. }
  split; [exact H0|].
  split; [intros; now apply record_output_ok|].
  split; [intros; now apply handle_ok|].
  split; [intros; now apply handle_text_ok|].
  split; [intros; now apply run_calls_ok|].
  split; [exact Hall|].
  intros l Hlen Hl. rewrite Hall by assumption. rewrite Hlen.
  unfold HISTORY_MAX_LEN. simpl. destruct l; reflexivity.
Qed.

Lemma history_bounded_fifo_witness :
  history_ok (history new_processor)
  /\ history_ok (history (record_output new_processor (u "hello")))
  /\ length sample_strings = 301
  /\ forallb recordable sample_strings = true
  /\ history (fold_left record_output sample_strings new_processor)
     = map truncated (tl sample_strings).
Proof.
  destruct history_bounded_fifo as (H0 & Hrec & _ & _ & _ & _ & H301).
  split; [exact H0|].
  split; [apply Hrec; exact H0|].
  split; [reflexivity|].
  split; [vm_compute; reflexivity|].
  apply H301; [reflexivity | vm_compute; reflexivity].
Defined.

(** ** The branches of [handle] *)

Lemma handle_pause (p : CommandProcessor) (raw : ustring) :
  mem (normalize raw) pause_phrases = true ->
  handle p raw =
  ({| paused := true; history := history p |},
   mkResult true (u "⏸ 已暂停输入") (OStr [])).
Proof. intros H. unfold handle. now rewrite H. Qed.

Lemma handle_resume (p : CommandProcessor) (raw : ustring) :
  mem (normalize raw) pause_phrases = false ->
  mem (normalize raw) resume_phrases = true ->
  handle p raw =
  ({| paused := false; history := history p |},
   mkResult true (u "▶️ 已恢复输入") (OStr [])).
Proof. intros H1 H2. unfold handle. now rewrite H1, H2. Qed.

Lemma handle_while_paused (p : CommandProcessor) (raw : ustring) :
  paused p = true ->
  mem (normalize raw) pause_phrases = false ->
  mem (normalize raw) resume_phrases = false ->
  handle p raw = (p, mkResult true (u "⏸(暂停中) " ++ raw) (OStr [])).
Proof. intros H0 H1 H2. unfold handle. now rewrite H1, H2, H0. Qed.

(** The phrase lists of [handle] are pairwise disjoint, and none of the
    phrases is a key of [punc_map]. *)
Lemma resume_not_pause (t : ustring) :
  mem t resume_phrases = true -> mem t pause_phrases = false.
Proof.
  intros H. apply mem_In in H. cbv [resume_phrases In] in H.
  repeat (destruct H as [<-|H]; [vm_compute; reflexivity|]). contradiction.
Qed.

Lemma undo_phrase_exclusive (t : ustring) :
  mem t undo_phrases = true ->
  mem t pause_phrases = false /\ mem t resume_phrases = false
  /\ mem t enter_phrases = false /\ mem t tab_phrases = false
  /\ mem t esc_phrases = false /\ dict_get punc_map t = None.
Proof.
  intros H. apply mem_In in H. cbv [undo_phrases In] in H.
  repeat (destruct H as [<-|H]; [vm_compute; repeat split; reflexivity|]).
  contradiction.
Qed.

Lemma handle_undo (p : CommandProcessor) (raw : ustring) :
  paused p = false ->
  mem (normalize raw) undo_phrases = true ->
  handle p raw =
  match deque_pop (history p) with
  | None => (p, mkResult true (u "⚠️ 没有可删除的内容") (OStr []))
  | Some (last, rest) =>
      ({| paused := false; history := rest |},
       mkResult true (u "⌫ 删除上一句：" ++ last)
         (OTuple BACKSPACE (Z.of_nat (length last))))
  end.
Proof.
  intros H0 H.
  destruct (undo_phrase_exclusive _ H) as (H1 & H2 & H3 & H4 & H5 & H6).
  unfold handle. rewrite H1, H2, H0, H3, H4, H5, H6, H. reflexivity.
Qed.

Lemma deque_append_snoc {A : Type} (m : nat) (d : list A) (x : A) :
  1 <= m ->
  deque_append m d x = (if m <=? length d then tl d else d) ++ [x].
Proof.
  intros Hm. unfold deque_append. rewrite length_app. simpl.
  destruct (Nat.ltb_spec m (length d + 1)) as [L|L];
    destruct (Nat.leb_spec m (length d)) as [L'|L']; try lia; try reflexivity.
  destruct d as [|a d]; simpl in *; [lia | reflexivity].
Qed.

(** ** Delete-N and undo *)

(** C7. In the active state ["删除5个字"] is the action of five backspaces,
    and ["删除"], which has no digits, is not a delete-N command: the
    pattern does not match and [handle] falls back to the unhandled free
    text, which is the text itself. *)
Theorem delete_n_parsing (h : list ustring) :
  handle {| paused := false; history := h |} (u "删除5个字")
  = ({| paused := false; history := h |},
     mkResult true (u "⌫ 删除 5 个字") (OTuple BACKSPACE 5))
  /\ parse_delete_n (u "删除") = None
  /\ handle {| paused := false; history := h |} (u "删除")
     = ({| paused := false; history := h |},
        mkResult false (u "删除") (OStr (u "删除"))).
Proof.
  split; [vm_compute; reflexivity|].
  split; vm_compute; reflexivity.
Qed.

(** C3. Once the free text ["hello"] has been recorded by an active
    processor, an undo phrase gives the action of five backspaces and pops
    that entry: the history is the one before the recording (less its
    oldest entry when the recording evicted it).  For a new service the two
    calls of [handle_text] type ["hello"], then press backspace five times,
    and the history is empty again.  With an empty history an undo phrase
    gives a display-only result with the empty output and leaves the
    processor as it is; the text shown is the warning when the processor is
    active, and the echo of a paused processor otherwise. *)
Theorem undo_last_utterance :
  (forall p raw,
      paused p = false ->
      mem (normalize raw) undo_phrases = true ->
      handle (record_output p (u "hello")) raw
      = ({| paused := false;
            history := if HISTORY_MAX_LEN <=? length (history p)
                       then tl (history p) else history p |},
         mkResult true (u "⌫ 删除上一句：hello") (OTuple BACKSPACE 5)))
  /\ (forall t1 t2,
        handle_text new_service (u "hello") t1
        = ({| processor := {| paused := false; history := [u "hello"] |};
              _last_msg := u "hello"; _last_time := t1 |},
           [EvType (u "hello")])
        /\ handle_text (fst (handle_text new_service (u "hello") t1)) (u "删除上一句") t2
           = ({| processor := {| paused := false; history := [] |};
                 _last_msg := u "删除上一句"; _last_time := t2 |},
              [EvBackspace 5]))
  /\ (forall p raw,
        history p = [] ->
        mem (normalize raw) undo_phrases = true ->
        handle p raw
        = (p, mkResult true
                (if paused p then u "⏸(暂停中) " ++ raw
                 else u "⚠️ 没有可删除的内容")
                (OStr []))).
Proof.
  split; [|split].
  - intros p raw Hp Hu.
    rewrite handle_undo; [|now rewrite record_output_paused|assumption].
    rewrite record_output_history.
    change (recordable (u "hello")) with true. cbv iota.
    change (truncated (u "hello")) with (u "hello").
    rewrite deque_append_snoc by (unfold HISTORY_MAX_LEN; lia).
    rewrite deque_pop_app. reflexivity.
  - intros t1 t2. split; vm_compute; reflexivity.
  - intros p raw Hh Hu.
    destruct (undo_phrase_exclusive _ Hu) as (H1 & H2 & _).
    destruct (paused p) eqn:Hp.
    + now apply handle_while_paused.
    + rewrite handle_undo by assumption. rewrite Hh. reflexivity.
Qed.

Lemma undo_last_utterance_witness :
  paused new_processor = false
  /\ mem (normalize (u " 撤销上一句 ")) undo_phrases = true
  /\ handle (record_output new_processor (u "hello")) (u " 撤销上一句 ")
     = ({| paused := false;
           history := if HISTORY_MAX_LEN <=? length (history new_processor)
                      then tl (history new_processor) else history new_processor |},
        mkResult true (u "⌫ 删除上一句：hello") (OTuple BACKSPACE 5))
  /\ history new_processor = []
  /\ handle new_processor (u " 撤销上一句 ")
     = (new_processor,
        mkResult true
          (if paused new_processor then u "⏸(暂停中) " ++ u " 撤销上一句 "
           else u "⚠️ 没有可删除的内容")
          (OStr [])).
Proof.
  assert (Hu : mem (normalize (u " 撤销上一句 ")) undo_phrases = true)
    by (vm_compute; reflexivity).
  destruct undo_last_utterance as (H1 & _ & H3).
  split; [reflexivity|].
  split; [exact Hu|].
  split; [exact (H1 new_processor (u " 撤销上一句 ") eq_refl Hu)|].
  split; [reflexivity|].
  exact (H3 new_processor (u " 撤销上一句 ") eq_refl Hu).
Defined.

(** ** Pause gating *)

Lemma handle_paused_step (p : CommandProcessor) (raw : ustring) :
  paused p = true ->
  mem (normalize raw) resume_phrases = false ->
  paused (fst (handle p raw)) = true
  /\ history (fst (handle p raw)) = history p
  /\ output (snd (handle p raw)) = OStr [].
Proof.
  intros Hp Hr. destruct (mem (normalize raw) pause_phrases) eqn:E.
  - rewrite handle_pause by assumption. simpl. auto.
  - rewrite handle_while_paused by assumption. simpl. auto.
Qed.

Lemma handle_all_paused (raws : list ustring) (p : CommandProcessor) :
  paused p = true ->
  forallb (fun raw => negb (mem (normalize raw) resume_phrases)) raws = true ->
  paused (fst (handle_all p raws)) = true
  /\ history (fst (handle_all p raws)) = history p
  /\ Forall (fun r => output r = OStr []) (snd (handle_all p raws)).
Proof.
  revert p; induction raws as [|raw raws IH]; intros p Hp Hall.
  - cbn [handle_all fst snd]. auto.
  - cbn [forallb] in Hall. apply andb_true_iff in Hall as [Hraw Hall].
    apply negb_true_iff in Hraw.
    destruct (handle_paused_step p raw Hp Hraw) as (H1 & H2 & H3).
    cbn [handle_all].
    destruct (handle p raw) as [p1 r1]. cbn [fst snd] in H1, H2, H3.
    destruct (IH p1 H1 Hall) as (I1 & I2 & I3).
    destruct (handle_all p1 raws) as [p2 rs]. cbn [fst snd] in *.
    split; [assumption|]. split; [congruence|]. now constructor.
Qed.

Lemma interpret_and_inject_paused (s : InputService) (text : ustring) :
  paused (processor s) = true ->
  mem (normalize text) resume_phrases = false ->
  injects (snd (interpret_and_inject s text)) = false
  /\ history (processor (fst (interpret_and_inject s text))) = history (processor s)
  /\ paused (processor (fst (interpret_and_inject s text))) = true.
Proof.
  intros Hp Hr.
  destruct (handle_paused_step (processor s) text Hp Hr) as (H1 & H2 & H3).
  unfold interpret_and_inject.
  destruct (handle (processor s) text) as [p r]. simpl in *.
  rewrite H3. simpl. auto.
Qed.

Lemma handle_text_paused (s : InputService) (T : ustring) (now : Q) :
  paused (processor s) = true ->
  mem (normalize (strip T)) resume_phrases = false ->
  ustring_eqb (strip T) (u "__TEST_INJECT__") = false ->
  injects (snd (handle_text s T now)) = false
  /\ history (processor (fst (handle_text s T now))) = history (processor s)
  /\ paused (processor (fst (handle_text s T now))) = true.
Proof.
  intros Hp Hr Hs. unfold handle_text, _server_dedup.
  destruct (strip T) as [|c t]; [simpl; auto|].
  destruct (is_duplicate s (c :: t) now); [simpl; auto|].
  rewrite Hs.
  apply (interpret_and_inject_paused
           {| processor := processor s; _last_msg := c :: t; _last_time := now |});
    assumption.
Qed.

(** C2. A pause phrase puts the processor in the paused state.  While it is
    paused, a text that is neither a pause nor a resume phrase comes back
    as a display-only result with the empty output and the processor is
    unchanged; over any sequence of texts without a resume phrase every
    output is empty, the processor stays paused and the history is the
    same.  In [handle_text] the result of the interpreter is then only
    shown: nothing is injected and nothing is recorded, and so for the
    whole of [handle_text] on any text but the diagnostic
    ["__TEST_INJECT__"], which is not given to the interpreter.  A resume
    phrase puts the processor back in the active state with the same
    history, so the next text is handled as by an active processor. *)
Theorem pause_gating :
  (forall p raw,
      mem (normalize raw) pause_phrases = true ->
      handle p raw
      = ({| paused := true; history := history p |},
         mkResult true (u "⏸ 已暂停输入") (OStr [])))
  /\ (forall p raw,
        paused p = true ->
        mem (normalize raw) pause_phrases = false ->
        mem (normalize raw) resume_phrases = false ->
        handle p raw = (p, mkResult true (u "⏸(暂停中) " ++ raw) (OStr [])))
  /\ (forall p raws,
        paused p = true ->
        forallb (fun raw => negb (mem (normalize raw) resume_phrases)) raws = true ->
        paused (fst (handle_all p raws)) = true
        /\ history (fst (handle_all p raws)) = history p
        /\ Forall (fun r => output r = OStr []) (snd (handle_all p raws)))
  /\ (forall s text,
        paused (processor s) = true ->
        mem (normalize text) resume_phrases = false ->
        injects (snd (interpret_and_inject s text)) = false
        /\ history (processor (fst (interpret_and_inject s text)))
           = history (processor s)
        /\ paused (processor (fst (interpret_and_inject s text))) = true)
  /\ (forall s T now,
        paused (processor s) = true ->
        mem (normalize (strip T)) resume_phrases = false ->
        ustring_eqb (strip T) (u "__TEST_INJECT__") = false ->
        injects (snd (handle_text s T now)) = false
        /\ history (processor (fst (handle_text s T now))) = history (processor s)
        /\ paused (processor (fst (handle_text s T now))) = true)
  /\ (forall p raw raw',
        mem (normalize raw) resume_phrases = true ->
        handle p raw
        = ({| paused := false; history := history p |},
           mkResult true (u "▶️ 已恢复输入") (OStr []))
        /\ handle (fst (handle p raw)) raw'
           = handle {| paused := false; history := history p |} raw').
Proof.
  split; [exact handle_pause|].
  split; [exact handle_while_paused|].
  split; [intros; now apply handle_all_paused|].
  split; [intros; now apply interpret_and_inject_paused|].
  split; [intros; now apply handle_text_paused|].
  intros p raw raw' Hr.
  rewrite (handle_resume p raw (resume_not_pause _ Hr) Hr). auto.
Qed.

Lemma pause_gating_witness :
  mem (normalize (u "暂停")) pause_phrases = true
  /\ paused paused_processor = true
  /\ mem (normalize (u "删除上一句")) pause_phrases = false
  /\ mem (normalize (u "删除上一句")) resume_phrases = false
  /\ handle paused_processor (u "删除上一句")
     = (paused_processor,
        mkResult true (u "⏸(暂停中) " ++ u "删除上一句") (OStr []))
  /\ mem (normalize (u "继续")) resume_phrases = true
  /\ handle paused_processor (u "继续")
     = ({| paused := false; history := history paused_processor |},
        mkResult true (u "▶️ 已恢复输入") (OStr [])).
Proof.
  assert (H1 : paused paused_processor = true) by (vm_compute; reflexivity).
  assert (H2 : mem (normalize (u "删除上一句")) pause_phrases = false)
    by (vm_compute; reflexivity).
  assert (H3 : mem (normalize (u "删除上一句")) resume_phrases = false)
    by (vm_compute; reflexivity).
  assert (H4 : mem (normalize (u "继续")) resume_phrases = true)
    by (vm_compute; reflexivity).
  destruct pause_gating as (_ & G2 & _ & _ & _ & G5).
  split; [vm_compute; reflexivity|].
  split; [exact H1|]. split; [exact H2|]. split; [exact H3|].
  split; [exact (G2 paused_processor (u "删除上一句") H1 H2 H3)|].
  split; [exact H4|].
  exact (proj1 (G5 paused_processor (u "继续") (u "继续") H4)).
Defined.

(** ** The dedup gate *)

Lemma is_duplicate_iff (s : InputService) (text : ustring) (now : Q) :
  is_duplicate s text now = true
  <-> text = _last_msg s /\ (now - _last_time s < SERVER_DEDUP_WINDOW_SEC)%Q.
Proof.
  unfold is_duplicate. now rewrite andb_true_iff, ustring_eqb_eq, Qltb_lt.
Qed.

(** C6, as stated, fails: the call at time 101 reports a duplicate and the
    slot still holds the time 100 of the accepted message, not 101. *)
Lemma dedup_slot_kept_on_duplicate :
  _last_msg service_after_a = u "a"
  /\ _last_time service_after_a = (100 # 1)%Q
  /\ fst (_server_dedup service_after_a (u "a") (101 # 1)%Q) = true
  /\ _last_time (snd (_server_dedup service_after_a (u "a") (101 # 1)%Q)) = (100 # 1)%Q
  /\ (_last_time (snd (_server_dedup service_after_a (u "a") (101 # 1)%Q))
      <> (101 # 1)%Q).
Proof.
  split; [vm_compute; reflexivity|].
  split; [vm_compute; reflexivity|].
  split; [vm_compute; reflexivity|].
  split; [vm_compute; reflexivity|].
  vm_compute. discriminate.
Qed.

(** C6, amended. [_server_dedup] reports a duplicate exactly when the text
    is the stored one and less than 1.2 seconds passed since the stored
    time; the slot is overwritten with the current text and time when the
    call reports no duplicate, and is left as it is when it reports one. *)
Theorem dedup_slot_update (s : InputService) (text : ustring) (now : Q) :
  (fst (_server_dedup s text now) = true
   <-> text = _last_msg s /\ (now - _last_time s < SERVER_DEDUP_WINDOW_SEC)%Q)
  /\ (fst (_server_dedup s text now) = false ->
      snd (_server_dedup s text now)
      = {| processor := processor s; _last_msg := text; _last_time := now |})
  /\ (fst (_server_dedup s text now) = true ->
      snd (_server_dedup s text now) = s).
Proof.
  rewrite <- is_duplicate_iff. unfold _server_dedup.
  destruct (is_duplicate s text now); simpl.
  - split; [tauto|]. split; [discriminate | reflexivity].
  - split; [tauto|]. split; [reflexivity | discriminate].
Qed.

Lemma dedup_slot_update_witness :
  fst (_server_dedup service_after_a (u "b") (101 # 1)%Q) = false
  /\ snd (_server_dedup service_after_a (u "b") (101 # 1)%Q)
     = {| processor := processor service_after_a;
          _last_msg := u "b"; _last_time := (101 # 1)%Q |}
  /\ fst (_server_dedup service_after_a (u "a") (101 # 1)%Q) = true
  /\ snd (_server_dedup service_after_a (u "a") (101 # 1)%Q) = service_after_a.
Proof.
  assert (H1 : fst (_server_dedup service_after_a (u "b") (101 # 1)%Q) = false)
    by (vm_compute; reflexivity).
  assert (H2 : fst (_server_dedup service_after_a (u "a") (101 # 1)%Q) = true)
    by (vm_compute; reflexivity).
  split; [exact H1|].
  split; [exact (proj1 (proj2 (dedup_slot_update service_after_a (u "b") (101 # 1)%Q)) H1)|].
  split; [exact H2|].
  exact (proj2 (proj2 (dedup_slot_update service_after_a (u "a") (101 # 1)%Q)) H2).
Defined.

Lemma interpret_and_inject_slot (s : InputService) (text : ustring) :
  _last_msg (fst (interpret_and_inject s text)) = _last_msg s
  /\ _last_time (fst (interpret_and_inject s text)) = _last_time s.
Proof.
  unfold interpret_and_inject.
  destruct (handle (processor s) text) as [p r].
  destruct (is_empty_output (output r)); [now split|].
  destruct (output r); try (now split).
  destruct (negb (handled r)); now split.
Qed.

(** A call that passes the gate leaves its text and its time in the slot. *)
Lemma handle_text_slot (s : InputService) (T : ustring) (now : Q) :
  strip T <> [] ->
  is_duplicate s (strip T) now = false ->
  _last_msg (fst (handle_text s T now)) = strip T
  /\ _last_time (fst (handle_text s T now)) = now.
Proof.
  intros Hne Hd. unfold handle_text, _server_dedup.
  destruct (strip T) as [|c t] eqn:E; [congruence|].
  rewrite Hd.
  destruct (ustring_eqb (c :: t) (u "__TEST_INJECT__")); [now split|].
  apply interpret_and_inject_slot.
Qed.

Lemma handle_text_suppressed (s : InputService) (T : ustring) (now : Q) :
  strip T <> [] ->
  is_duplicate s (strip T) now = true ->
  handle_text s T now = (s, [EvPrint (u "⏭️ 服务器去重：" ++ u " " ++ strip T)]).
Proof.
  intros Hne Hd. unfold handle_text, _server_dedup.
  destruct (strip T) as [|c t] eqn:E; [congruence|].
  rewrite Hd. reflexivity.
Qed.

(** C1, as stated, fails: the call at time 101 is suppressed and leaves the
    slot at time 100, so the call at time 102, one second after the call
    before it, is 2 seconds after the stored time: it passes the gate,
    types the text again and records it a second time. *)
Lemma dedup_repeat_after_suppressed_call :
  ((102 # 1) - (101 # 1) < SERVER_DEDUP_WINDOW_SEC)%Q
  /\ snd (handle_text service_after_hello (u "hello") (101 # 1)%Q)
     = [EvPrint (u "⏭️ 服务器去重： hello")]
  /\ snd (handle_text service_after_hello_twice (u "hello") (102 # 1)%Q)
     = [EvType (u "hello")]
  /\ history (processor service_after_hello_twice) = [u "hello"]
  /\ history (processor (fst (handle_text service_after_hello_twice
                                 (u "hello") (102 # 1)%Q)))
     = [u "hello"; u "hello"].
Proof.
  split; [reflexivity|].
  split; [vm_compute; reflexivity|].
  split; [vm_compute; reflexivity|].
  split; vm_compute; reflexivity.
Qed.

Lemma suppressed_non_blank (s : InputService) (T : ustring) (now : Q) :
  strip T <> [] -> suppressed s T now = is_duplicate s (strip T) now.
Proof. unfold suppressed. destruct (strip T); [congruence | reflexivity]. Qed.

(** C1, amended. When a call of [handle_text] is not itself suppressed as a
    duplicate and the same text comes again less than 1.2 seconds after
    it, the second call injects nothing and leaves the whole service, the
    interpreter included, as the first call left it: it only prints the
    de-duplication line (and does nothing at all for a blank text). *)
Theorem dedup_suppresses_repeat (s : InputService) (T : ustring) (t1 t2 : Q) :
  suppressed s T t1 = false ->
  (t2 - t1 < SERVER_DEDUP_WINDOW_SEC)%Q ->
  fst (handle_text (fst (handle_text s T t1)) T t2) = fst (handle_text s T t1)
  /\ injects (snd (handle_text (fst (handle_text s T t1)) T t2)) = false
  /\ snd (handle_text (fst (handle_text s T t1)) T t2)
     = match strip T with
       | [] => []
       | text => [EvPrint (u "⏭️ 服务器去重：" ++ u " " ++ text)]
       end.
Proof.
  intros Hd Hlt.
  destruct (strip T) as [|c t] eqn:E.
  - unfold handle_text. rewrite E. simpl. rewrite ?E. auto.
  - assert (Hne : strip T <> []) by congruence.
    rewrite suppressed_non_blank in Hd by assumption.
    destruct (handle_text_slot s T t1 Hne Hd) as [Hm Ht].
    rewrite handle_text_suppressed.
    + rewrite E. auto.
    + exact Hne.
    + apply is_duplicate_iff. rewrite Hm, Ht. auto.
Qed.

Lemma dedup_suppresses_repeat_witness :
  suppressed new_service (u "hello") (100 # 1)%Q = false
  /\ ((101 # 1) - (100 # 1) < SERVER_DEDUP_WINDOW_SEC)%Q
  /\ fst (handle_text (fst (handle_text new_service (u "hello") (100 # 1)%Q))
            (u "hello") (101 # 1)%Q)
     = fst (handle_text new_service (u "hello") (100 # 1)%Q)
  /\ injects (snd (handle_text (fst (handle_text new_service (u "hello") (100 # 1)%Q))
                     (u "hello") (101 # 1)%Q)) = false.
Proof.
  assert (H1 : suppressed new_service (u "hello") (100 # 1)%Q = false)
    by (vm_compute; reflexivity).
  assert (H2 : ((101 # 1) - (100 # 1) < SERVER_DEDUP_WINDOW_SEC)%Q)
    by reflexivity.
  split; [exact H1|]. split; [exact H2|].
  destruct (dedup_suppresses_repeat new_service (u "hello") _ _ H1 H2) as (A & B & _).
  split; [exact A | exact B].
Defined.

(** ** Recording of injected text *)



(** The results of [handle] whose output is a string, by [handled]: the
    unhandled one is the free text itself, a handled one is empty or a
    symbol of [punc_map]. *)
Lemma handle_str_output (p : CommandProcessor) (raw str : ustring) :
  output (snd (handle p raw)) = OStr str ->
  (handled (snd (handle p raw)) = false -> str = raw /\ fst (handle p raw) = p)
  /\ (handled (snd (handle p raw)) = true ->
      str = [] \/ (dict_get punc_map (normalize raw) = Some str
                   /\ fst (handle p raw) = p)).
Proof.
  unfold handle.
  repeat match goal with
         | |- context [if ?c then _ else _] => destruct c
         | |- context [match dict_get ?d ?k with _ => _ end] =>
             destruct (dict_get d k) eqn:?
         | |- context [match parse_delete_n ?t with _ => _ end] =>
             destruct (parse_delete_n t)
         | |- context [match deque_pop ?d with _ => _ end] =>
             destruct (deque_pop d) as [[? ?]|]
         end; simpl; intros H; try discriminate;
    injection H as <-; split; intros; try discriminate; auto.
Qed.

Lemma interpret_and_inject_str (s : InputService) (text str : ustring) :
  output (snd (handle (processor s) text)) = OStr str ->
  str <> [] ->
  snd (interpret_and_inject s text) = [EvType str]
  /\ history (processor (fst (interpret_and_inject s text)))
     = if handled (snd (handle (processor s) text))
       then history (fst (handle (processor s) text))
       else if recordable str
            then deque_append HISTORY_MAX_LEN
                   (history (fst (handle (processor s) text))) (truncated str)
            else history (fst (handle (processor s) text)).
Proof.
  intros Ho Hne. unfold interpret_and_inject.
  destruct (handle (processor s) text) as [p r]. simpl in Ho |- *.
  rewrite Ho.
  destruct str as [|c str]; [congruence|]. simpl.
  destruct (handled r); simpl.
  - auto.
  - split; [reflexivity|]. apply record_output_history.
Qed.

Lemma lstrip_head (s t : ustring) (c : N) :
  lstrip s = c :: t -> is_space c = false.
Proof.
  induction s as [|a s IH]; simpl; [discriminate|].
  destruct (is_space a) eqn:E; [exact IH|].
  intros H; injection H as <- _. exact E.
Qed.

(** A stripped text is not a bare line break, so [record_output] stores a
    stripped text that is not empty. *)
Lemma strip_recordable (T : ustring) : strip T <> [] -> recordable (strip T) = true.
Proof.
  intros Hne. unfold recordable.
  apply andb_true_iff. split; apply negb_true_iff, ustring_eqb_neq; [exact Hne|].
  unfold strip, rstrip. intros E.
  apply (f_equal (@rev N)) in E. rewrite rev_involutive in E.
  apply lstrip_head in E. discriminate.
Qed.

(** C5, as stated, fails for the punctuation lookup: ["逗号"] types the
    symbol ["，"], which is not empty and not a line break, and the history
    stays empty. *)
Lemma punctuation_not_recorded :
  handle new_processor (u "逗号")
  = (new_processor, mkResult true (u "⌨️ 逗号") (OStr (u "，")))
  /\ recordable (u "，") = true
  /\ snd (handle_text new_service (u "逗号") (100 # 1)%Q) = [EvType (u "，")]
  /\ history (processor (fst (handle_text new_service (u "逗号") (100 # 1)%Q))) = [].
Proof.
  split; [vm_compute; reflexivity|].
  split; [vm_compute; reflexivity|].
  split; vm_compute; reflexivity.
Qed.

(** C5, amended. When a call of [handle_text] reaches the interpreter and
    the result is a non-empty string, the string is typed; it is pushed
    onto the history, truncated to 4000 characters, exactly when the
    result is unhandled, that is when the string is the free text itself
    (which, being stripped, is never a bare line break).  A handled
    string, which is a symbol of the punctuation lookup, is typed and not
    recorded. *)
Theorem free_text_recorded (s : InputService) (T str : ustring) (now : Q) :
  strip T <> [] ->
  suppressed s T now = false ->
  ustring_eqb (strip T) (u "__TEST_INJECT__") = false ->
  output (snd (handle (processor s) (strip T))) = OStr str ->
  str <> [] ->
  snd (handle_text s T now) = [EvType str]
  /\ (handled (snd (handle (processor s) (strip T))) = false ->
      str = strip T
      /\ history (processor (fst (handle_text s T now)))
         = deque_append HISTORY_MAX_LEN (history (processor s)) (truncated str))
  /\ (handled (snd (handle (processor s) (strip T))) = true ->
      dict_get punc_map (normalize (strip T)) = Some str
      /\ history (processor (fst (handle_text s T now))) = history (processor s)).
Proof.
  intros Hne Hd Hs Ho Hstr.
  rewrite suppressed_non_blank in Hd by assumption.
  assert (E : handle_text s T now
              = interpret_and_inject
                  {| processor := processor s; _last_msg := strip T; _last_time := now |}
                  (strip T)).
  { unfold handle_text, _server_dedup.
    destruct (strip T) as [|c t]; [congruence|]. rewrite Hd, Hs. reflexivity. }
  rewrite E.
  set (s1 := {| processor := processor s; _last_msg := strip T; _last_time := now |}).
  destruct (interpret_and_inject_str s1 (strip T) str Ho Hstr) as [Hev Hh].
  destruct (handle_str_output (processor s) (strip T) str Ho) as [Hun Hha].
  split; [exact Hev|]. split.
  - intros Hf. destruct (Hun Hf) as [-> Hp]. split; [reflexivity|].
    rewrite Hh. simpl processor. rewrite Hf, Hp, strip_recordable by assumption.
    reflexivity.
  - intros Ht. destruct (Hha Ht) as [->|[Hp Hq]]; [congruence|].
    split; [exact Hp|]. rewrite Hh. simpl processor. rewrite Ht, Hq. reflexivity.
Qed.

Lemma free_text_recorded_witness :
  strip (u " hello ") <> []
  /\ suppressed new_service (u " hello ") (100 # 1)%Q = false
  /\ ustring_eqb (strip (u " hello ")) (u "__TEST_INJECT__") = false
  /\ output (snd (handle (processor new_service) (strip (u " hello "))))
     = OStr (u "hello")
  /\ handled (snd (handle (processor new_service) (strip (u " hello ")))) = false
  /\ snd (handle_text new_service (u " hello ") (100 # 1)%Q) = [EvType (u "hello")]
  /\ history (processor (fst (handle_text new_service (u " hello ") (100 # 1)%Q)))
     = deque_append HISTORY_MAX_LEN (history (processor new_service))
         (truncated (u "hello")).
Proof.
  assert (H1 : strip (u " hello ") <> []) by (vm_compute; discriminate).
  assert (H2 : suppressed new_service (u " hello ") (100 # 1)%Q = false)
    by (vm_compute; reflexivity).
  assert (H3 : ustring_eqb (strip (u " hello ")) (u "__TEST_INJECT__") = false)
    by (vm_compute; reflexivity).
  assert (H4 : output (snd (handle (processor new_service) (strip (u " hello "))))
               = OStr (u "hello")) by (vm_compute; reflexivity).
  assert (H5 : u "hello" <> []) by (vm_compute; discriminate).
  assert (H6 : handled (snd (handle (processor new_service) (strip (u " hello "))))
               = false) by (vm_compute; reflexivity).
  destruct (free_text_recorded new_service (u " hello ") (u "hello") (100 # 1)%Q
              H1 H2 H3 H4 H5) as (A & B & _).
  split; [exact H1|]. split; [exact H2|]. split; [exact H3|].
  split; [exact H4|]. split; [exact H6|]. split; [exact A|].
  exact (proj2 (B H6)).
Defined.

(** ** Repeated text outside the dedup window *)

Lemma int_of_digits_nonneg (s : ustring) : (0 <= int_of_digits s)%Z.
Proof.
  unfold int_of_digits.
  assert (G : forall acc, (0 <= acc)%Z ->
            (0 <= fold_left
                    (fun a c => (a * 10 + match decimal_value c with
                                          | Some d => d | None => 0 end)%Z)
                    s acc)%Z).
  { induction s as [|c s IH]; intros acc Hacc; simpl; [assumption|].
    apply IH. unfold decimal_value.
    destruct (find _ decimal_zeros); lia. }
  apply G. lia.
Qed.








(** ** The delete-N pattern is searched, not matched against the whole text *)

Lemma span_spec (p : N -> bool) (s : ustring) :
  s = fst (span p s) ++ snd (span p s)
  /\ forallb p (fst (span p s)) = true
  /\ match snd (span p s) with [] => True | c :: _ => p c = false end.
Proof.
  induction s as [|c s IH]; simpl.
  - auto.
  - destruct (p c) eqn:E.
    + destruct (span p s) as [a b]. simpl in *.
      destruct IH as (I1 & I2 & I3). rewrite E, I2, <- I1. auto.
    + simpl. rewrite E. auto.
Qed.

Lemma span_app (p : N -> bool) (a b : ustring) :
  forallb p a = true ->
  span p (a ++ b) = (a ++ fst (span p b), snd (span p b)).
Proof.
  induction a as [|c a IH]; simpl; intros H.
  - now destruct (span p b).
  - apply andb_true_iff in H as [Hc Ha]. rewrite Hc, (IH Ha). reflexivity.
Qed.


Lemma space_chars (c : N) :
  is_space c = true ->
  In c [0x09; 0x0A; 0x0B; 0x0C; 0x0D; 0x1C; 0x1D; 0x1E; 0x1F; 0x20; 0x85; 0xA0;
        0x1680; 0x2000; 0x2001; 0x2002; 0x2003; 0x2004; 0x2005; 0x2006; 0x2007;
        0x2008; 0x2009; 0x200A; 0x2028; 0x2029; 0x202F; 0x205F; 0x3000]%N.
Proof.
  unfold is_space. intros H.
  repeat rewrite ?orb_true_iff, ?andb_true_iff, ?N.leb_le, ?N.eqb_eq in H.
  simpl In. lia.
Qed.

(** [\s] and [\d] have no character in common. *)
Lemma digit_not_space (c : N) : is_digit c = true -> is_space c = false.
Proof.
  intros Hd. destruct (is_space c) eqn:Hs; [|reflexivity].
  apply space_chars in Hs. simpl In in Hs.
  repeat (destruct Hs as [<-|Hs]; [vm_compute in Hd; discriminate|]).
  contradiction.
Qed.













(** The example of the claim, evaluated: the sentence is not typed, three
    backspaces are pressed, and the history stays empty. *)
Lemma delete_n_inside_sentence :
  handle new_processor (u "请删除3个字谢谢")
  = (new_processor, mkResult true (u "⌫ 删除 3 个字") (OTuple BACKSPACE 3))
  /\ handle_text new_service (u "请删除3个字谢谢") (100 # 1)%Q
     = ({| processor := new_processor;
           _last_msg := u "请删除3个字谢谢"; _last_time := (100 # 1)%Q |},
        [EvBackspace 3]).
Proof. split; vm_compute; reflexivity. Qed.


(** ** The command-execution channel *)

Section CommandChannel.

Variable run : list ustring -> run_outcome.
Variable commands : list configured_command.

(** What [execute_command] does, by cases: the four outcomes of the
    specification when the argument vector is built, and the exception
    of [_build_command_args] otherwise. *)
Lemma execute_command_outcomes (text : ustring) :
  (_match_command text commands = None ->
   execute_command run commands text
   = Return (mkResult true (u "未找到匹配指令：" ++ text)
               (ODict false (u "未找到匹配指令"))))
  /\ (forall cmd,
        _match_command text commands = Some cmd ->
        _build_command_args (command cmd) (args cmd) = Return [] ->
        execute_command run commands text
        = Return (mkResult true (u "命令配置错误：" ++ text)
                    (ODict false (u "命令配置错误"))))
  /\ (forall cmd argv,
        _match_command text commands = Some cmd ->
        _build_command_args (command cmd) (args cmd) = Return argv ->
        argv <> [] ->
        exists ok display msg,
          execute_command run commands text
          = Return (mkResult true display (ODict ok msg))
          /\ match run argv with
             | Completed returncode _ =>
                 ok = (returncode =? 0)%Z /\ display = msg
             | RunRaised e =>
                 ok = false /\ msg = u "指令执行异常：" ++ e
             end)
  /\ (forall cmd e,
        _match_command text commands = Some cmd ->
        _build_command_args (command cmd) (args cmd) = Raise e ->
        execute_command run commands text = Raise e).
Proof.
  unfold execute_command. split; [|split; [|split]].
  - intros ->. reflexivity.
  - intros cmd -> ->. reflexivity.
  - intros cmd argv -> -> Hne. destruct argv as [|a argv]; [congruence|].
    cbn [bind]. destruct (run (a :: argv)) as [rc err | e].
    + eexists _, _, _. split; [reflexivity|]. split; reflexivity.
    + eexists _, _, _. split; [reflexivity|]. split; reflexivity.
  - intros cmd e -> ->. reflexivity.
Qed.


End CommandChannel.

(** C9. [execute_command] can raise: the configured command string
    [echo 'hi] has an unclosed quotation, [shlex.split] raises [ValueError]
    on it in [_build_command_args], which is called before the [try]
    block, and the exception leaves [execute_command] whatever
    [subprocess.run] would do. *)
Theorem execute_command_unclosed_quote (run : list ustring -> run_outcome) :
  _match_command (u "x") [unclosed_quote_command] = Some unclosed_quote_command
  /\ shlex_split (u "echo 'hi") = Raise (ValueError (u "No closing quotation"))
  /\ execute_command run [unclosed_quote_command] (u "x")
     = Raise (ValueError (u "No closing quotation")).
Proof.
  split; [vm_compute; reflexivity|].
  split; vm_compute; reflexivity.
Qed.

(* ================================================================== *)
(** * Further properties of the code *)

(** ** [str.strip] *)

Lemma lstrip_nil_iff (s : ustring) : lstrip s = [] <-> forallb is_space s = true.
Proof.
  induction s as [|c s IH]; simpl; [tauto|].
  destruct (is_space c); simpl; [exact IH|]. split; discriminate.
Qed.

Lemma lstrip_fixed (s : ustring) :
  match s with [] => True | c :: _ => is_space c = false end -> lstrip s = s.
Proof. destruct s as [|c s]; simpl; [reflexivity|]. now intros ->. Qed.

Lemma lstrip_suffix (s : ustring) :
  exists ws, s = ws ++ lstrip s /\ forallb is_space ws = true.
Proof.
  induction s as [|c s (ws & E & H)]; simpl.
  - now exists [].
  - destruct (is_space c) eqn:Ec.
    + exists (c :: ws). simpl. rewrite Ec, H, <- E. auto.
    + now exists [].
Qed.

Lemma lstrip_head_ok (s : ustring) :
  match lstrip s with [] => True | c :: _ => is_space c = false end.
Proof.
  destruct (lstrip s) as [|c t] eqn:E; [exact I|]. now apply lstrip_head in E.
Qed.

Lemma forallb_rev (p : N -> bool) (s : ustring) : forallb p (rev s) = forallb p s.
Proof.
  induction s as [|c s IH]; simpl; [reflexivity|].
  rewrite forallb_app, IH. simpl. rewrite andb_true_r. apply andb_comm.
Qed.

(** A text is blank for [strip] exactly when all its characters are white
    space. *)
Lemma strip_nil_iff (s : ustring) : strip s = [] <-> forallb is_space s = true.
Proof.
  unfold strip, rstrip. split.
  - intros H. apply (f_equal (@rev N)) in H. rewrite rev_involutive in H.
    simpl in H. apply lstrip_nil_iff in H. rewrite forallb_rev in H.
    apply lstrip_nil_iff.
    destruct (lstrip s) as [|c t] eqn:E; [reflexivity|].
    apply lstrip_head in E. simpl in H. rewrite E in H. discriminate.
  - intros H. apply lstrip_nil_iff in H. now rewrite H.
Qed.

Lemma strip_idempotent (s : ustring) : strip (strip s) = strip s.
Proof.
  unfold strip, rstrip.
  set (a := lstrip s).
  pose proof (lstrip_head_ok s) as Ha. fold a in Ha.
  set (b := lstrip (rev a)).
  pose proof (lstrip_head_ok (rev a)) as Hb. fold b in Hb.
  destruct (lstrip_suffix (rev a)) as (ws & E & Hws). fold b in E.
  assert (Ea : a = rev b ++ rev ws).
  { rewrite <- rev_app_distr, <- E. now rewrite rev_involutive. }
  assert (H1 : lstrip (rev b) = rev b).
  { apply lstrip_fixed. destruct (rev b) as [|c t] eqn:Er; [exact I|].
    rewrite Ea in Ha. simpl in Ha. exact Ha. }
  rewrite H1, rev_involutive.
  rewrite (lstrip_fixed b Hb). reflexivity.
Qed.

(** ** Blank messages and the single slot of the dedup gate *)

(** X6. A message of white space only does nothing: [handle_text] returns
    at once, nothing is shown or injected, and neither the interpreter nor
    the slot of the dedup gate changes. *)
Theorem blank_message_ignored (s : InputService) (T : ustring) (now : Q) :
  forallb is_space T = true -> handle_text s T now = (s, []).
Proof.
  intros H. apply strip_nil_iff in H. unfold handle_text. now rewrite H.
Qed.

Lemma blank_message_ignored_witness :
  forallb is_space [32; 9; 0x3000; 10]%N = true
  /\ handle_text service_after_hello [32; 9; 0x3000; 10]%N (100 # 1)%Q
     = (service_after_hello, []).
Proof.
  assert (H : forallb is_space [32; 9; 0x3000; 10]%N = true) by reflexivity.
  split; [exact H|].
  exact (blank_message_ignored service_after_hello _ (100 # 1)%Q H).
Defined.

(** X7. The gate remembers one message only: when a text passes the gate
    and a different text follows, the second passes whatever the times
    are, and so does the first text when it comes again after the second,
    however soon. *)
Theorem dedup_single_slot (s : InputService) (A B : ustring) (t1 t2 t3 : Q) :
  strip A <> [] ->
  strip B <> [] ->
  strip A <> strip B ->
  suppressed s A t1 = false ->
  suppressed (fst (handle_text s A t1)) B t2 = false
  /\ suppressed (fst (handle_text (fst (handle_text s A t1)) B t2)) A t3 = false.
Proof.
  intros HA HB Hne Hd.
  rewrite suppressed_non_blank in Hd by assumption.
  destruct (handle_text_slot s A t1 HA Hd) as [Hm _].
  assert (Hd2 : is_duplicate (fst (handle_text s A t1)) (strip B) t2 = false).
  { unfold is_duplicate. rewrite Hm.
    apply andb_false_iff. left. apply ustring_eqb_neq. congruence. }
  destruct (handle_text_slot _ B t2 HB Hd2) as [Hm2 _].
  split; [now rewrite suppressed_non_blank|].
  rewrite suppressed_non_blank by assumption.
  unfold is_duplicate. rewrite Hm2.
  apply andb_false_iff. left. now apply ustring_eqb_neq.
Qed.

Lemma dedup_single_slot_witness :
  suppressed (fst (handle_text new_service (u "a") (100 # 1)%Q)) (u "b") (100 # 1)%Q
  = false
  /\ suppressed (fst (handle_text (fst (handle_text new_service (u "a") (100 # 1)%Q))
                        (u "b") (100 # 1)%Q)) (u "a") (100 # 1)%Q = false.
Proof.
  apply (dedup_single_slot new_service (u "a") (u "b")).
  - vm_compute. discriminate.
  - vm_compute. discriminate.
  - vm_compute. discriminate.
  - vm_compute. reflexivity.
Defined.

(** ** What [handle] changes and what it reports as unhandled *)

Lemma handle_free_text (p : CommandProcessor) (raw : ustring) :
  paused p = false ->
  free_text (normalize raw) = true ->
  handle p raw = (p, mkResult false raw (OStr raw)).
Proof.
  intros Hp H. unfold free_text in H.
  repeat (apply andb_true_iff in H as [H ?]).
  repeat match goal with
         | H : negb _ = true |- _ => apply negb_true_iff in H
         end.
  unfold handle.
  destruct (dict_get punc_map (normalize raw)); [discriminate|].
  destruct (parse_delete_n (normalize raw)); [discriminate|].
  repeat match goal with
         | H : mem _ _ = false |- _ => rewrite H; clear H
         end.
  rewrite Hp. reflexivity.
Qed.

(** X1. [handle] sets the pause flag on a pause phrase, clears it on a
    resume phrase and leaves it as it is on any other text; it leaves the
    history as it is except in its undo branch (an undo phrase given to an
    active processor), which removes the last entry. *)
Theorem handle_frame (p : CommandProcessor) (raw : ustring) :
  paused (fst (handle p raw))
  = (if mem (normalize raw) pause_phrases then true
     else if mem (normalize raw) resume_phrases then false
     else paused p)
  /\ history (fst (handle p raw))
     = (if undo_call p raw then removelast (history p) else history p).
Proof.
  unfold undo_call.
  destruct (mem (normalize raw) undo_phrases) eqn:Hu.
  - destruct (undo_phrase_exclusive _ Hu) as (H1 & H2 & _).
    rewrite H1, H2. destruct (paused p) eqn:Hp.
    + rewrite handle_while_paused by assumption. simpl. auto.
    + rewrite handle_undo by assumption. simpl.
      destruct (deque_pop (history p)) as [[last rest]|] eqn:E; simpl.
      * apply deque_pop_Some in E. rewrite E, removelast_last. auto.
      * apply deque_pop_None in E. rewrite E. auto.
  - rewrite andb_false_r. unfold handle. rewrite Hu.
    destruct p as [pa h]. cbn [paused history].
    repeat match goal with
           | |- context [if ?c then _ else _] => destruct c
           | |- context [match dict_get ?d ?k with _ => _ end] =>
               destruct (dict_get d k)
           | |- context [match parse_delete_n ?t with _ => _ end] =>
               destruct (parse_delete_n t)
           end; simpl; split; reflexivity.
Qed.

(** X2. [handle] reports a text as unhandled exactly when the processor is
    active and the normalized text is free text; the result then carries
    the text as it was given, not its normalized form, and the processor
    is unchanged. *)
Theorem unhandled_is_verbatim (p : CommandProcessor) (raw : ustring) :
  handled (snd (handle p raw)) = negb (negb (paused p) && free_text (normalize raw))
  /\ (handled (snd (handle p raw)) = false ->
      handle p raw = (p, mkResult false raw (OStr raw))).
Proof.
  assert (H : handled (snd (handle p raw))
              = negb (negb (paused p) && free_text (normalize raw))).
  { unfold handle, free_text. destruct p as [[|] h]; cbn [paused history];
    repeat match goal with
           | |- context [if ?c then _ else _] => destruct c
           | |- context [match dict_get ?d ?k with _ => _ end] =>
               destruct (dict_get d k)
           | |- context [match parse_delete_n ?t with _ => _ end] =>
               destruct (parse_delete_n t)
           | |- context [match deque_pop ?d with _ => _ end] =>
               destruct (deque_pop d) as [[? ?]|]
           end; reflexivity. }
  split; [exact H|].
  rewrite H. intros E. apply negb_false_iff, andb_true_iff in E as [E1 E2].
  apply negb_true_iff in E1. now apply handle_free_text.
Qed.

Lemma unhandled_is_verbatim_witness :
  handled (snd (handle new_processor (u " 豆号x "))) = false
  /\ normalize (u " 豆号x ") = u "逗号x"
  /\ handle new_processor (u " 豆号x ")
     = (new_processor, mkResult false (u " 豆号x ") (OStr (u " 豆号x "))).
Proof.
  assert (H : handled (snd (handle new_processor (u " 豆号x "))) = false)
    by (vm_compute; reflexivity).
  split; [exact H|]. split; [vm_compute; reflexivity|].
  exact (proj2 (unhandled_is_verbatim new_processor (u " 豆号x ")) H).
Defined.

(** ** The history, step by step *)

Lemma interpret_and_inject_handled (s : InputService) (text : ustring) :
  handled (snd (handle (processor s) text)) = true ->
  processor (fst (interpret_and_inject s text)) = fst (handle (processor s) text).
Proof.
  unfold interpret_and_inject.
  destruct (handle (processor s) text) as [p r]. cbn [fst snd]. intros H.
  destruct (is_empty_output (output r)); [reflexivity|].
  destruct (output r); try reflexivity. rewrite H. reflexivity.
Qed.

Lemma free_text_not_undo (t : ustring) :
  free_text t = true -> mem t undo_phrases = false.
Proof.
  unfold free_text. intros H.
  repeat (apply andb_true_iff in H as [H ?]).
  repeat match goal with
         | H : negb _ = true |- _ => apply negb_true_iff in H
         end.
  assumption.
Qed.

(** X5. The history after a call of [handle_text], in full: it is the one
    before the call when the text is blank, suppressed by the gate or the
    diagnostic text; otherwise it loses its last entry in the undo branch,
    gains the stripped text (truncated to 4000 characters, the oldest
    entry leaving a full history) when the processor is active and the
    text is free text, and is the one before the call in every other
    case. *)
Theorem handle_text_history (s : InputService) (T : ustring) (now : Q) :
  history (processor (fst (handle_text s T now)))
  = if negb (non_blank T) || suppressed s T now
       || ustring_eqb (strip T) (u "__TEST_INJECT__")
    then history (processor s)
    else if undo_call (processor s) (strip T)
    then removelast (history (processor s))
    else if negb (paused (processor s)) && free_text (normalize (strip T))
    then deque_append HISTORY_MAX_LEN (history (processor s)) (truncated (strip T))
    else history (processor s).
Proof.
  unfold handle_text, suppressed, non_blank, _server_dedup.
  destruct (strip T) as [|c t] eqn:E; [reflexivity|].
  cbn [negb orb].
  destruct (is_duplicate s (c :: t) now); [reflexivity|].
  destruct (ustring_eqb (c :: t) (u "__TEST_INJECT__")); [reflexivity|].
  cbn [orb].
  set (s1 := {| processor := processor s; _last_msg := c :: t; _last_time := now |}).
  change (processor s) with (processor s1).
  destruct (unhandled_is_verbatim (processor s1) (c :: t)) as [Hh Hv].
  destruct (negb (paused (processor s1)) && free_text (normalize (c :: t))) eqn:A.
  - cbn [negb] in Hh. specialize (Hv Hh).
    apply andb_true_iff in A as [A1 A2].
    unfold undo_call. rewrite (free_text_not_undo _ A2), andb_false_r.
    unfold interpret_and_inject. rewrite Hv. cbn.
    rewrite record_output_history.
    assert (R : recordable (c :: t) = true).
    { rewrite <- E. apply strip_recordable. congruence. }
    now rewrite R.
  - cbn [negb] in Hh.
    rewrite (interpret_and_inject_handled s1 (c :: t) Hh).
    apply (proj2 (handle_frame (processor s1) (c :: t))).
Qed.

(** ** What is sent to the injector *)

Lemma execute_output_events (out : py_output) :
  length (execute_output out) <= 1
  /\ forall e, In e (execute_output out) -> well_formed_event e.
Proof.
  destruct out as [[|c t]|[| | |] n|ok m]; simpl;
    try (split; [lia | intros e H; repeat destruct H as [<-|H]; simpl; easy]).
  unfold backspace. destruct (Z.ltb_spec 0 n); simpl.
  - split; [lia|]. intros e [<-|[]]. exact H.
  - split; [lia|]. intros e [].
Qed.

Lemma interpret_and_inject_events (s : InputService) (text : ustring) :
  length (snd (interpret_and_inject s text)) <= 1
  /\ forall e, In e (snd (interpret_and_inject s text)) -> well_formed_event e.
Proof.
  unfold interpret_and_inject.
  destruct (handle (processor s) text) as [p r].
  destruct (is_empty_output (output r)).
  - simpl. split; [lia|]. intros e [<-|[]]. exact I.
  - assert (F : (if is_str (output r) then focus_target else [])
                ++ execute_output (output r) = execute_output (output r))
      by (destruct (is_str (output r)); reflexivity).
    cbv zeta. rewrite F.
    destruct (output r) eqn:Eo; try destruct (negb (handled r)); cbn [snd];
      rewrite <- Eo; apply execute_output_events.
Qed.

(** X3. Whatever the text and the state, [handle_text] asks the injector
    for nothing ill-formed: it never types the empty string, never presses
    backspace zero or a negative number of times, and never clicks.  Apart
    from the diagnostic text, a call has at most one effect: one line
    printed, one notification, or one injection. *)
Theorem handle_text_events (s : InputService) (T : ustring) (now : Q) :
  (forall e, In e (snd (handle_text s T now)) -> well_formed_event e)
  /\ (ustring_eqb (strip T) (u "__TEST_INJECT__") = false ->
      length (snd (handle_text s T now)) <= 1).
Proof.
  unfold handle_text, _server_dedup.
  destruct (strip T) as [|c t]; [split; [intros e []|simpl; lia]|].
  destruct (is_duplicate s (c :: t) now).
  - split; [intros e [<-|[]]; exact I | simpl; lia].
  - destruct (ustring_eqb (c :: t) (u "__TEST_INJECT__")).
    + split; [|discriminate]. intros e H. vm_compute in H.
      repeat (destruct H as [<-|H]; [simpl; easy|]). contradiction.
    + split; [|intros _]; apply interpret_and_inject_events.
Qed.

Lemma handle_text_events_witness :
  ustring_eqb (strip (u "删除0个字")) (u "__TEST_INJECT__") = false
  /\ snd (handle_text new_service (u "删除0个字") (100 # 1)%Q) = []
  /\ length (snd (handle_text new_service (u "删除0个字") (100 # 1)%Q)) <= 1.
Proof.
  assert (H : ustring_eqb (strip (u "删除0个字")) (u "__TEST_INJECT__") = false)
    by (vm_compute; reflexivity).
  split; [exact H|]. split; [vm_compute; reflexivity|].
  exact (proj2 (handle_text_events new_service (u "删除0个字") (100 # 1)%Q) H).
Defined.

(** ** Undo after any free text *)

Lemma truncated_min (s : ustring) : length (truncated s) = Nat.min (length s) 4000.
Proof.
  unfold truncated. destruct (Nat.ltb_spec 4000 (length s)) as [L|L].
  - rewrite length_firstn. lia.
  - lia.
Qed.

(** X4. When an active service types a free text and the next message is
    an undo phrase, the undo is never suppressed by the gate; it presses
    backspace once per character of the text as recorded, that is at most
    4000 times even when the text typed was longer, and the history is the
    one before the text (less its oldest entry when that was evicted). *)
Theorem undo_after_free_text (s : InputService) (T U : ustring) (t1 t2 : Q) :
  paused (processor s) = false ->
  strip T <> [] ->
  suppressed s T t1 = false ->
  ustring_eqb (strip T) (u "__TEST_INJECT__") = false ->
  free_text (normalize (strip T)) = true ->
  mem (normalize (strip U)) undo_phrases = true ->
  snd (handle_text s T t1) = [EvType (strip T)]
  /\ snd (handle_text (fst (handle_text s T t1)) U t2)
     = [EvBackspace (Z.of_nat (Nat.min (length (strip T)) 4000))]
  /\ history (processor (fst (handle_text (fst (handle_text s T t1)) U t2)))
     = (if HISTORY_MAX_LEN <=? length (history (processor s))
        then tl (history (processor s)) else history (processor s)).
Proof.
  intros Hp HT Hd Hs Hf Hu.
  rewrite suppressed_non_blank in Hd by assumption.
  (* the first call *)
  assert (E1 : handle_text s T t1
               = interpret_and_inject
                   {| processor := processor s; _last_msg := strip T; _last_time := t1 |}
                   (strip T)).
  { unfold handle_text, _server_dedup.
    destruct (strip T) as [|c t]; [congruence|]. now rewrite Hd, Hs. }
  assert (E1' : handle_text s T t1
                = ({| processor := record_output (processor s) (strip T);
                      _last_msg := strip T; _last_time := t1 |},
                   [EvType (strip T)])).
  { rewrite E1. unfold interpret_and_inject. cbn [processor].
    rewrite (handle_free_text _ _ Hp Hf). cbn.
    destruct (strip T) as [|c t]; [congruence | reflexivity]. }
  rewrite E1'. cbn [fst snd]. split; [reflexivity|].
  (* the undo phrase is another text, not blank and not the diagnostic one *)
  assert (HU : strip U <> []).
  { intros E. rewrite E in Hu. vm_compute in Hu. discriminate. }
  assert (HUs : ustring_eqb (strip U) (u "__TEST_INJECT__") = false).
  { destruct (ustring_eqb (strip U) (u "__TEST_INJECT__")) eqn:E; [|reflexivity].
    apply ustring_eqb_eq in E. rewrite E in Hu. vm_compute in Hu. discriminate. }
  assert (HUT : strip U <> strip T).
  { intros E. rewrite E, (free_text_not_undo _ Hf) in Hu. discriminate. }
  set (s1 := {| processor := record_output (processor s) (strip T);
                _last_msg := strip T; _last_time := t1 |}).
  assert (Hd2 : is_duplicate s1 (strip U) t2 = false).
  { unfold is_duplicate. cbn [_last_msg s1].
    apply andb_false_iff. left. now apply ustring_eqb_neq. }
  assert (E2 : handle_text s1 U t2
               = interpret_and_inject
                   {| processor := processor s1; _last_msg := strip U; _last_time := t2 |}
                   (strip U)).
  { unfold handle_text, _server_dedup.
    destruct (strip U) as [|c t]; [congruence|]. now rewrite Hd2, HUs. }
  rewrite E2. unfold interpret_and_inject. cbn [processor s1].
  rewrite handle_undo; [|now rewrite record_output_paused|exact Hu].
  rewrite record_output_history, (strip_recordable T HT).
  rewrite deque_append_snoc by (unfold HISTORY_MAX_LEN; lia).
  rewrite deque_pop_app. cbn.
  rewrite truncated_min.
  assert (Hpos : (0 <? Z.of_nat (Nat.min (length (strip T)) 4000))%Z = true).
  { apply Z.ltb_lt. destruct (strip T); [congruence|]. simpl length. lia. }
  unfold backspace. rewrite Hpos. split; reflexivity.
Qed.

Lemma undo_after_free_text_witness :
  snd (handle_text new_service (u "你好 world") (100 # 1)%Q)
  = [EvType (strip (u "你好 world"))]
  /\ snd (handle_text (fst (handle_text new_service (u "你好 world") (100 # 1)%Q))
            (u "撤回上一句") (100 # 1)%Q)
     = [EvBackspace (Z.of_nat (Nat.min (length (strip (u "你好 world"))) 4000))]
  /\ history (processor (fst (handle_text
                                 (fst (handle_text new_service (u "你好 world") (100 # 1)%Q))
                                 (u "撤回上一句") (100 # 1)%Q)))
     = (if HISTORY_MAX_LEN <=? length (history (processor new_service))
        then tl (history (processor new_service))
        else history (processor new_service)).
Proof.
  apply (undo_after_free_text new_service (u "你好 world") (u "撤回上一句")).
  - reflexivity.
  - vm_compute. discriminate.
  - vm_compute. reflexivity.
  - vm_compute. reflexivity.
  - vm_compute. reflexivity.
  - vm_compute. reflexivity.
Defined.

(** ** The command channel: matching, the argument vector, the outcome *)





Lemma shlex_tokens_non_empty (s : ustring) :
  forall st token l,
    (st = LexSpace \/ token <> []) ->
    shlex_tokens st token s = Return l ->
    Forall (fun t => t <> []) l.
Proof.
  induction s as [|c s IH]; intros st token l Hst; simpl.
  - destruct st; intros H; try discriminate; injection H as <-.
    + constructor.
    + destruct Hst as [Hst|Hst]; [discriminate|]. now repeat constructor.
  - assert (Hsnoc : token ++ [c] <> []) by (destruct token; discriminate).
    destruct st as [| |q].
    + destruct (shlex_whitespace c); [apply IH; auto|].
      destruct (shlex_quotes c); apply IH; right; discriminate.
    + destruct (shlex_whitespace c).
      * destruct (shlex_tokens LexSpace [] s) as [rest|e] eqn:E; cbn [bind];
          intros H; [|discriminate]. injection H as <-.
        constructor; [destruct Hst; [discriminate | assumption]|].
        apply (IH LexSpace [] rest); auto.
      * apply IH. now right.
    + destruct (c =? q)%N.
      * destruct (shlex_tokens LexSpace [] s) as [rest|e] eqn:E; cbn [bind];
          intros H; [|discriminate]. injection H as <-.
        constructor; [assumption|]. apply (IH LexSpace [] rest); auto.
      * apply IH. now right.
Qed.

Lemma non_blank_non_empty (x : ustring) : non_blank x = true -> x <> [].
Proof. intros H ->. discriminate. Qed.

(** X9. The argument vector that [_build_command_args] builds never holds
    an empty string: blank elements of a command list and of [args] are
    dropped, and the tokens of a command string are not empty. *)
Theorem build_command_args_non_empty
    (c : command_value) (a : option (list ustring)) (argv : list ustring) :
  _build_command_args c a = Return argv ->
  Forall (fun x => x <> []) argv.
Proof.
  assert (F : forall l, Forall (fun x : ustring => x <> []) (filter non_blank l)).
  { intros l. apply Forall_forall. intros x Hx. apply filter_In in Hx.
    now apply non_blank_non_empty. }
  unfold _build_command_args.
  destruct c as [|s|l]; cbn [bind].
  - destruct a; intros H; injection H as <-; [apply F | constructor].
  - destruct (non_blank s).
    + destruct (shlex_split s) as [parts|e] eqn:E; cbn [bind]; [|discriminate].
      assert (P : Forall (fun t : ustring => t <> []) parts)
        by (apply (shlex_tokens_non_empty s LexSpace [] parts); auto).
      destruct a; intros H; injection H as <-; [|exact P].
      apply Forall_app. split; [exact P | apply F].
    + cbn [bind]. destruct a; intros H; injection H as <-; [apply F | constructor].
  - destruct a; intros H; injection H as <-.
    + apply Forall_app. split; apply F.
    + apply F.
Qed.

Lemma build_command_args_non_empty_witness :
  _build_command_args (CmdStr (u "open  -a 'Google Chrome' ")) (Some [u " "; u "x"])
  = Return [u "open"; u "-a"; u "'Google Chrome'"; u "x"]
  /\ Forall (fun x : ustring => x <> [])
       [u "open"; u "-a"; u "'Google Chrome'"; u "x"].
Proof.
  assert (H : _build_command_args (CmdStr (u "open  -a 'Google Chrome' "))
                (Some [u " "; u "x"])
              = Return [u "open"; u "-a"; u "'Google Chrome'"; u "x"])
    by (vm_compute; reflexivity).
  split; [exact H|].
  exact (build_command_args_non_empty _ _ _ H).
Defined.


Section CommandOutcome.

Variable run : list ustring -> run_outcome.
Variable commands : list configured_command.


(** X11. A result of [execute_command] is always handled and carries a
    dictionary, never a text or an action; its [ok] is true exactly when a
    command matched, its argument vector is not empty, and the process ran
    and exited with code 0. *)
Theorem execute_command_ok_iff (text : ustring) (r : CommandResult) :
  execute_command run commands text = Return r ->
  handled r = true
  /\ exists ok message,
       output r = ODict ok message
       /\ (ok = true
           <-> exists cmd argv stderr,
                 _match_command text commands = Some cmd
                 /\ _build_command_args (command cmd) (args cmd) = Return argv
                 /\ argv <> []
                 /\ run argv = Completed 0 stderr).
Proof.
  unfold execute_command.
  destruct (_match_command text commands) as [cmd|].
  - destruct (_build_command_args (command cmd) (args cmd)) as [argv|e'] eqn:E;
      cbn [bind]; [|discriminate].
    destruct argv as [|a argv].
    + intros H; injection H as <-. split; [reflexivity|].
      eexists _, _. split; [reflexivity|]. split; [discriminate|].
      intros (c' & v' & err & Hc & Hb & Hne & _). injection Hc as <-.
      rewrite E in Hb. injection Hb as <-. congruence.
    + destruct (run (a :: argv)) as [rc err|ex] eqn:Er;
        intros H; injection H as <-; (split; [reflexivity|]);
        eexists _, _; (split; [reflexivity|]).
      * split.
        -- intros Hok. apply Z.eqb_eq in Hok. subst rc.
           exists cmd, (a :: argv), err. repeat split; auto. discriminate.
        -- intros (c' & v' & err' & Hc & Hb & _ & Hr). injection Hc as <-.
           rewrite E in Hb. injection Hb as <-. rewrite Er in Hr.
           injection Hr as -> _. reflexivity.
      * split; [discriminate|].
        intros (c' & v' & err' & Hc & Hb & _ & Hr). injection Hc as <-.
        rewrite E in Hb. injection Hb as <-. rewrite Er in Hr. discriminate.
  - intros H; injection H as <-. split; [reflexivity|].
    eexists _, _. split; [reflexivity|]. split; [discriminate|].
    intros (c' & _ & _ & Hc & _). discriminate.
Qed.

End CommandOutcome.


Lemma execute_command_ok_iff_witness :
  execute_command run_ok [list_command; unclosed_quote_command] (u "lock")
  = Return (mkResult true (u "指令执行成功：lock") (ODict true (u "指令执行成功：lock")))
  /\ handled (mkResult true (u "指令执行成功：lock") (ODict true (u "指令执行成功：lock")))
     = true.
Proof.
  assert (H : execute_command run_ok [list_command; unclosed_quote_command] (u "lock")
              = Return (mkResult true (u "指令执行成功：lock")
                          (ODict true (u "指令执行成功：lock"))))
    by (vm_compute; reflexivity).
  split; [exact H|].
  exact (proj1 (execute_command_ok_iff run_ok _ _ _ H)).
Defined.

(** ** The older interpreter of [server.py] *)

Lemma mem_app (x : ustring) (a b : list ustring) : mem x (a ++ b) = mem x a || mem x b.
Proof. unfold mem. apply existsb_app. Qed.

Lemma not_newer_phrase (t : ustring) :
  mem t newer_phrases = false ->
  mem t enter_phrases = mem t server.enter_phrases
  /\ mem t tab_phrases = false /\ mem t esc_phrases = false.
Proof.
  unfold newer_phrases. rewrite !mem_app. intros H.
  apply orb_false_iff in H as [H1 H].
  apply orb_false_iff in H as [H2 H3].
  split; [|auto].
  change enter_phrases
    with (server.enter_phrases
          ++ [u "enter"; u "ENTER"; u "回车键"; u "enter键"; u "Enter"]).
  now rewrite mem_app, H1, orb_false_r.
Qed.

Lemma server_handle_same (p : CommandProcessor) (raw : ustring) :
  mem (normalize raw) newer_phrases = false ->
  server.handle p raw = handle p raw.
Proof.
  intros H. destruct (not_newer_phrase _ H) as (H1 & H2 & H3).
  unfold server.handle, handle. now rewrite H1, H2, H3.
Qed.

(** A phrase of [newer_phrases] is free text for [server.py]. *)
Lemma newer_phrase_is_free_text (t : ustring) :
  mem t newer_phrases = true ->
  mem t pause_phrases = false /\ mem t resume_phrases = false
  /\ mem t server.enter_phrases = false /\ dict_get punc_map t = None
  /\ mem t undo_phrases = false /\ parse_delete_n t = None
  /\ mem t clear_phrases = false.
Proof.
  intros H. apply mem_In in H. vm_compute in H.
  repeat (destruct H as [<-|H]; [vm_compute; repeat split; reflexivity|]).
  contradiction.
Qed.

Lemma handle_tuple_key (p : CommandProcessor) (raw : ustring) (k : key) (n : Z) :
  output (snd (handle p raw)) = OTuple k n ->
  mem (normalize raw) newer_phrases = false ->
  k = BACKSPACE \/ k = ENTER.
Proof.
  intros Ho H. destruct (not_newer_phrase _ H) as (_ & H2 & H3).
  revert Ho. unfold handle. rewrite H2, H3.
  repeat match goal with
         | |- context [if ?c then _ else _] => destruct c
         | |- context [match dict_get ?d ?x with _ => _ end] =>
             destruct (dict_get d x)
         | |- context [match parse_delete_n ?t with _ => _ end] =>
             destruct (parse_delete_n t)
         | |- context [match deque_pop ?d with _ => _ end] =>
             destruct (deque_pop d) as [[? ?]|]
         end; simpl; intros Ho; try discriminate; injection Ho as <- _; auto.
Qed.

Lemma filter_click_well_formed (l : list event) :
  (forall e, In e l -> well_formed_event e) ->
  filter (fun e => match e with EvClick => false | _ => true end) l = l.
Proof.
  induction l as [|e l IH]; intros Hw; [reflexivity|].
  cbn [filter]. assert (W : well_formed_event e) by (apply Hw; now left).
  rewrite IH by (intros e' He'; apply Hw; now right).
  destruct e; try reflexivity. contradiction.
Qed.

(** X12. The interpreter of [server.py] and the one of [lanvi_input.py]
    agree on every text whose normalized form is not one of the newer key
    phrases: [handle] returns the same, and [handle_text] leaves the same
    state and performs the same effects, but for the mouse click that
    [server.py] makes before it injects.  On a newer phrase the active
    processor of [server.py] falls back to free text: it types the phrase
    instead of pressing the key. *)
Theorem server_agrees_outside_newer_phrases :
  (forall p raw,
      mem (normalize raw) newer_phrases = false ->
      server.handle p raw = handle p raw)
  /\ (forall s T now,
        mem (normalize (strip T)) newer_phrases = false ->
        fst (server.handle_text s T now) = fst (handle_text s T now)
        /\ filter (fun e => match e with EvClick => false | _ => true end)
             (snd (server.handle_text s T now))
           = snd (handle_text s T now))
  /\ (forall p raw,
        paused p = false ->
        mem (normalize raw) newer_phrases = true ->
        server.handle p raw = (p, mkResult false raw (OStr raw))).
Proof.
  split; [exact server_handle_same|]. split.
  - intros s T now H.
    unfold server.handle_text, handle_text, _server_dedup.
    destruct (strip T) as [|c t] eqn:E; [auto|].
    destruct (is_duplicate s (c :: t) now); [auto|].
    destruct (ustring_eqb (c :: t) (u "__TEST_INJECT__"));
      [split; [reflexivity | cbn [snd]; vm_compute; reflexivity]|].
    unfold interpret_and_inject.
    cbn [processor].
    rewrite (server_handle_same _ _ H).
    pose proof (handle_tuple_key (processor s) (c :: t)) as Hk.
    destruct (handle (processor s) (c :: t)) as [p r]. cbn [snd] in Hk.
    destruct (is_empty_output (output r)); [auto|].
    assert (Hev : filter (fun e => match e with EvClick => false | _ => true end)
                    (server.focus_target ++ server.execute_output (output r))
                  = (if is_str (output r) then focus_target else [])
                    ++ execute_output (output r)).
    { pose proof (proj2 (execute_output_events (output r))) as Hw.
      assert (Hsame : server.execute_output (output r) = execute_output (output r)).
      { destruct (output r) as [[|? ?]|k n|? ?] eqn:Eo; try reflexivity.
        destruct (Hk k n eq_refl H) as [-> | ->]; reflexivity. }
      rewrite Hsame.
      replace ((if is_str (output r) then focus_target else [])
               ++ execute_output (output r)) with (execute_output (output r))
        by (destruct (is_str (output r)); reflexivity).
      change (server.focus_target ++ execute_output (output r))
        with (EvClick :: execute_output (output r)).
      cbn [filter]. now apply filter_click_well_formed. }
    cbv zeta. destruct (output r); try destruct (negb (handled r));
      cbn [fst snd]; split; try reflexivity; exact Hev.
  - intros p raw Hp H.
    destruct (newer_phrase_is_free_text _ H) as (H1 & H2 & H3 & H4 & H5 & H6 & H7).
    unfold server.handle. now rewrite H1, H2, Hp, H3, H4, H5, H6, H7.
Qed.

Lemma server_agrees_outside_newer_phrases_witness :
  mem (normalize (u "回车")) newer_phrases = false
  /\ server.handle new_processor (u "回车") = handle new_processor (u "回车")
  /\ mem (normalize (u "tab")) newer_phrases = true
  /\ server.handle new_processor (u "tab")
     = (new_processor, mkResult false (u "tab") (OStr (u "tab")))
  /\ handle new_processor (u "tab")
     = (new_processor, mkResult true (u "↹ TAB") (OTuple TAB 1)).
Proof.
  assert (H1 : mem (normalize (u "回车")) newer_phrases = false)
    by (vm_compute; reflexivity).
  assert (H2 : mem (normalize (u "tab")) newer_phrases = true)
    by (vm_compute; reflexivity).
  destruct server_agrees_outside_newer_phrases as (A & _ & C).
  split; [exact H1|]. split; [exact (A new_processor (u "回车") H1)|].
  split; [exact H2|]. split; [exact (C new_processor (u "tab") eq_refl H2)|].
  vm_compute. reflexivity.
Defined.

(** ** The choice of the ports and the service state *)

Lemma find_in_range (free : Z -> bool) (start : Z) (n a : nat) (p : Z) :
  find free (map (fun i => (start + Z.of_nat i)%Z) (seq a n)) = Some p
  <-> exists k,
        a <= k < a + n /\ p = (start + Z.of_nat k)%Z /\ free p = true
        /\ forall j, a <= j < k -> free (start + Z.of_nat j)%Z = false.
Proof.
  revert a; induction n as [|n IH]; intros a; simpl.
  - split; [discriminate | intros (k & Hk & _); lia].
  - destruct (free (start + Z.of_nat a)%Z) eqn:E.
    + split.
      * intros H; injection H as <-. exists a. repeat split; auto; lia.
      * intros (k & Hk & -> & Hf & Hbefore).
        destruct (Nat.eq_dec k a) as [->|Hne]; [reflexivity|].
        rewrite (Hbefore a) in E by lia. discriminate.
    + rewrite IH. split.
      * intros (k & Hk & -> & Hf & Hbefore). exists k.
        repeat split; auto; try lia.
        intros j Hj. destruct (Nat.eq_dec j a) as [->|Hne]; [exact E|].
        apply Hbefore. lia.
      * intros (k & Hk & -> & Hf & Hbefore). exists k.
        assert (k <> a) by (intros ->; congruence).
        repeat split; auto; try lia. intros j Hj. apply Hbefore. lia.
Qed.

Lemma find_none_in_range (free : Z -> bool) (start : Z) (n : nat) :
  find free (map (fun i => (start + Z.of_nat i)%Z) (seq 0 n)) = None
  <-> forall q, (start <= q < start + Z.of_nat n)%Z -> free q = false.
Proof.
  split.
  - intros H q Hq.
    pose proof (find_none _ _ H (start + Z.of_nat (Z.to_nat (q - start)))%Z) as F.
    replace (start + Z.of_nat (Z.to_nat (q - start)))%Z with q in F by lia.
    apply F. apply in_map_iff. exists (Z.to_nat (q - start)).
    split; [lia|]. apply in_seq. lia.
  - intros H. destruct (find free _) as [p|] eqn:E; [|reflexivity].
    apply find_some in E as [Hin Hf]. apply in_map_iff in Hin as (i & <- & Hi).
    apply in_seq in Hi. rewrite H in Hf by lia. discriminate.
Qed.

(** X13. [choose_free_port] returns the first free port of the 50 ports
    from the start port on: the port it returns is free, lies in that
    range, and every port of the range before it is taken.  It raises
    exactly when all 50 ports are taken. *)
Theorem choose_free_port_first (free : Z -> bool) (start : Z) :
  (forall p,
      server.choose_free_port free start = server.PortFound p
      <-> (start <= p < start + 50)%Z /\ free p = true
          /\ forall q, (start <= q < p)%Z -> free q = false)
  /\ ((exists msg, server.choose_free_port free start = server.RuntimeError msg)
      <-> forall q, (start <= q < start + 50)%Z -> free q = false).
Proof.
  unfold server.choose_free_port, server.MAX_PORT_TRY. split.
  - intros p.
    destruct (find free _) as [p'|] eqn:E.
    + apply find_in_range in E as (k & Hk & -> & Hf & Hbefore). split.
      * intros H; injection H as <-. split; [lia|]. split; [exact Hf|].
        intros q Hq. replace q with (start + Z.of_nat (Z.to_nat (q - start)))%Z by lia.
        apply Hbefore. lia.
      * intros (Hp & Hfp & Hq). f_equal.
        destruct (Z.lt_trichotomy p (start + Z.of_nat k)) as [L|[L|L]]; [|auto|].
        -- replace p with (start + Z.of_nat (Z.to_nat (p - start)))%Z in Hfp by lia.
           rewrite Hbefore in Hfp by lia. discriminate.
        -- rewrite Hq in Hf by lia. discriminate.
    + split; [discriminate|]. intros (Hp & Hfp & _).
      rewrite (proj1 (find_none_in_range free start 50) E p) in Hfp by (simpl; lia).
      discriminate.
  - rewrite <- (find_none_in_range free start 50).
    destruct (find free _); split; try discriminate; eauto.
    intros [msg H]. discriminate.
Qed.

Section Lifecycle.

Variable free : Z -> bool.
Variable ip : ustring.

Lemma start_services_success (st st' : server.ServiceState) :
  server.SERVICE_RUNNING st = false ->
  server.start_services free ip st = (st', None) ->
  exists h w,
    server.choose_free_port free server.DEFAULT_HTTP_PORT = server.PortFound h
    /\ server.choose_free_port free server.DEFAULT_WS_PORT = server.PortFound w
    /\ st' = {| server.HTTP_PORT := Some h; server.WS_PORT := Some w;
                server.QR_URL := Some (u "http://" ++ ip ++ u ":" ++ str_of_int h);
                server.QR_PAYLOAD_URL :=
                  Some ((u "http://" ++ ip ++ u ":" ++ str_of_int h)
                        ++ u "?ws=" ++ str_of_int w);
                server.SERVICE_RUNNING := true |}.
Proof.
  intros Hr. unfold server.start_services. rewrite Hr.
  destruct (server.choose_free_port free server.DEFAULT_HTTP_PORT) as [h|m];
    [|discriminate].
  destruct (server.choose_free_port free server.DEFAULT_WS_PORT) as [w|m];
    [|discriminate].
  intros H; injection H as <-. eauto.
Qed.

(** X14. The service state of [server.py].  [start_services] does nothing
    when the service runs and [stop_services] nothing when it does not.  A
    start that succeeds sets the running flag, an HTTP port in
    [8080, 8130) and a different WebSocket port in [8765, 8815), both
    free, and the payload URL, which is the page URL followed by [?ws=]
    and the WebSocket port; a stop after it clears the ports and the URLs.
    A start that finds an HTTP port and no WebSocket port raises, and
    leaves the HTTP port set although the service does not run. *)
Theorem service_state_lifecycle :
  (forall st, server.SERVICE_RUNNING st = true ->
              server.start_services free ip st = (st, None))
  /\ (forall st, server.SERVICE_RUNNING st = false -> server.stop_services st = st)
  /\ (forall st st',
        server.SERVICE_RUNNING st = false ->
        server.start_services free ip st = (st', None) ->
        server.SERVICE_RUNNING st' = true
        /\ (exists h w url,
              server.HTTP_PORT st' = Some h /\ server.WS_PORT st' = Some w
              /\ (8080 <= h < 8130)%Z /\ (8765 <= w < 8815)%Z /\ h <> w
              /\ free h = true /\ free w = true
              /\ server.QR_URL st' = Some url
              /\ server.QR_PAYLOAD_URL st' = Some (url ++ u "?ws=" ++ str_of_int w))
        /\ server.stop_services st' = server.initial_state)
  /\ (forall st h,
        server.SERVICE_RUNNING st = false ->
        server.choose_free_port free 8080 = server.PortFound h ->
        (forall q, (8765 <= q < 8815)%Z -> free q = false) ->
        exists msg,
          server.start_services free ip st
          = ({| server.HTTP_PORT := Some h; server.WS_PORT := server.WS_PORT st;
                server.QR_URL := server.QR_URL st;
                server.QR_PAYLOAD_URL := server.QR_PAYLOAD_URL st;
                server.SERVICE_RUNNING := false |}, Some msg)).
Proof.
  split; [|split; [|split]].
  - intros st H. unfold server.start_services. now rewrite H.
  - intros st H. unfold server.stop_services. now rewrite H.
  - intros st st' Hr Hs.
    destruct (start_services_success st st' Hr Hs) as (h & w & Hh & Hw & ->).
    apply (proj1 (choose_free_port_first free _)) in Hh as (Hh1 & Hh2 & _).
    apply (proj1 (choose_free_port_first free _)) in Hw as (Hw1 & Hw2 & _).
    unfold server.DEFAULT_HTTP_PORT in Hh1. unfold server.DEFAULT_WS_PORT in Hw1.
    split; [reflexivity|]. split; [|reflexivity].
    exists h, w, (u "http://" ++ ip ++ u ":" ++ str_of_int h).
    cbn. repeat split; auto; lia.
  - intros st h Hr Hh Hnone.
    apply (proj2 (choose_free_port_first free 8765)) in Hnone as [msg Hm].
    exists msg. unfold server.start_services.
    rewrite Hr. unfold server.DEFAULT_HTTP_PORT, server.DEFAULT_WS_PORT.
    now rewrite Hh, Hm.
Qed.

End Lifecycle.

Lemma service_state_lifecycle_witness :
  server.start_services only_8080_taken (u "192.168.1.5") server.initial_state
  = ({| server.HTTP_PORT := Some 8081%Z; server.WS_PORT := Some 8765%Z;
        server.QR_URL := Some (u "http://192.168.1.5:8081");
        server.QR_PAYLOAD_URL := Some (u "http://192.168.1.5:8081?ws=8765");
        server.SERVICE_RUNNING := true |}, None)
  /\ server.SERVICE_RUNNING
       (fst (server.start_services only_8080_taken (u "192.168.1.5")
               server.initial_state)) = true
  /\ server.stop_services
       (fst (server.start_services only_8080_taken (u "192.168.1.5")
               server.initial_state)) = server.initial_state
  /\ exists msg,
       server.start_services ws_ports_taken (u "192.168.1.5") server.initial_state
       = ({| server.HTTP_PORT := Some 8080%Z;
             server.WS_PORT := server.WS_PORT server.initial_state;
             server.QR_URL := server.QR_URL server.initial_state;
             server.QR_PAYLOAD_URL := server.QR_PAYLOAD_URL server.initial_state;
             server.SERVICE_RUNNING := false |}, Some msg).
Proof.
  assert (H : server.start_services only_8080_taken (u "192.168.1.5")
                server.initial_state
              = ({| server.HTTP_PORT := Some 8081%Z; server.WS_PORT := Some 8765%Z;
                    server.QR_URL := Some (u "http://192.168.1.5:8081");
                    server.QR_PAYLOAD_URL := Some (u "http://192.168.1.5:8081?ws=8765");
                    server.SERVICE_RUNNING := true |}, None))
    by (vm_compute; reflexivity).
  split; [exact H|].
  destruct (service_state_lifecycle only_8080_taken (u "192.168.1.5"))
    as (_ & _ & S & _).
  destruct (S server.initial_state _ eq_refl H) as (A & _ & C).
  rewrite H. cbn [fst]. split; [exact A|]. split; [exact C|].
  destruct (service_state_lifecycle ws_ports_taken (u "192.168.1.5"))
    as (_ & _ & _ & F).
  apply (F server.initial_state 8080%Z eq_refl).
  - vm_compute. reflexivity.
  - intros q Hq. unfold ws_ports_taken. apply Z.ltb_ge. lia.
Defined.

(** ** The two transports *)

Lemma handle_text_strip (s : InputService) (T : ustring) (now : Q) :
  handle_text s (strip T) now = handle_text s T now.
Proof. unfold handle_text. now rewrite strip_idempotent. Qed.

Lemma match_command_strip (X : ustring) (commands : list configured_command) :
  _match_command (strip X) commands = _match_command X commands.
Proof. unfold _match_command. now rewrite strip_idempotent. Qed.

Lemma str_or_empty_FStr (s : ustring) : str_or_empty (FStr s) = s.
Proof. now destruct s. Qed.

Section Transports.

Variable loads : ustring -> json_payload.
Variable run : list ustring -> run_outcome.
Variable commands : list configured_command.


(** X16. A WebSocket frame that is a JSON object of type ["cmd"] whose
    string matches no configured command is answered with a command
    result that repeats the stripped string, with [ok] false and the
    no-match message; the service is unchanged and nothing is injected. *)
Theorem ws_unmatched_command
    (svc : InputService) (msg ty X : ustring) (now : Q) :
  strip msg <> [] ->
  starts_with (u "{") (strip msg) = true ->
  loads (strip msg) = JsonObject (FStr ty) (FStr X) ->
  strip ty = u "cmd" ->
  _match_command X commands = None ->
  ws_on_message loads run commands svc msg now
  = (svc, [EvPrint (u "收到：" ++ u " " ++ strip msg)],
     inr (Some (mkCmdResult (strip X) false (u "未找到匹配指令")))).
Proof.
  intros Hne Hb Hl Hty Hm. unfold ws_on_message.
  assert (P : ws_parse loads (strip msg) = (u "cmd", FStr X)).
  { unfold ws_parse. rewrite Hb, Hl.
    destruct ty as [|c t]; [vm_compute in Hty; discriminate|].
    cbn [truthy]. now rewrite Hty. }
  destruct (strip msg) as [|c t] eqn:E; [congruence|].
  rewrite P. rewrite ustring_eqb_refl, str_or_empty_FStr.
  unfold execute_command. rewrite match_command_strip, Hm. reflexivity.
Qed.

(** X17. A message with a string that is not blank has the same outcome on
    both transports: sent as the JSON body of [POST /send] or as a JSON
    object frame on the WebSocket, it leaves the same service state,
    performs the same effects (the WebSocket handler prints the frame
    first) and gets the same command result or the same exception.  A
    blank string on [POST /send] is refused with status 400 before
    anything is done. *)
Theorem transports_agree
    (svc : InputService) (msg X : ustring) (ty : field) (now : Q) :
  strip msg <> [] ->
  starts_with (u "{") (strip msg) = true ->
  loads (strip msg) = JsonObject ty (FStr X) ->
  (ty = FNone \/ exists s, ty = FStr s) ->
  (strip X <> [] ->
   ws_on_message loads run commands svc msg now
   = (fst (fst (send_http run commands svc (mkRequest ty (FStr X) None None) now)),
      EvPrint (u "收到：" ++ u " " ++ strip msg)
      :: snd (fst (send_http run commands svc (mkRequest ty (FStr X) None None) now)),
      reply_of (snd (send_http run commands svc (mkRequest ty (FStr X) None None) now))))
  /\ (strip X = [] ->
      send_http run commands svc (mkRequest ty (FStr X) None None) now
      = (svc, [], inr BadRequest)).
Proof.
  intros Hne Hb Hl Hty.
  assert (T : exists mt,
             ws_parse loads (strip msg) = (mt, FStr X)
             /\ http_msg_type (mkRequest ty (FStr X) None None) = Some mt).
  { unfold ws_parse, http_msg_type. rewrite Hb, Hl. cbn [json_type form_type].
    destruct Hty as [->|[[|c s] ->]]; cbn [truthy]; eauto. }
  destruct T as (mt & Pw & Ph).
  assert (Ht : http_text (mkRequest ty (FStr X) None None) = strip X).
  { unfold http_text. cbn [json_string]. now rewrite str_or_empty_FStr. }
  unfold send_http. rewrite Ph, Ht. split.
  - intros HX. unfold ws_on_message.
    destruct (strip msg) as [|c t] eqn:E; [congruence|].
    rewrite Pw, str_or_empty_FStr.
    destruct (strip X) as [|x xs] eqn:EX; [congruence|].
    destruct (ustring_eqb mt (u "cmd")).
    + destruct (execute_command run commands (x :: xs)); reflexivity.
    + rewrite <- EX, handle_text_strip.
      now destruct (handle_text svc X now).
  - intros ->. reflexivity.
Qed.

End Transports.


Lemma ws_unmatched_command_witness :
  (strip frame_cmd_X <> []
   /\ starts_with (u "{") (strip frame_cmd_X) = true
   /\ sample_loads (strip frame_cmd_X) = JsonObject (FStr (u "cmd")) (FStr (u "X"))
   /\ strip (u "cmd") = u "cmd"
   /\ _match_command (u "X") [list_command] = None)
  /\ ws_on_message sample_loads run_ok [list_command] new_service frame_cmd_X
       (100 # 1)%Q
     = (new_service, [EvPrint (u "收到：" ++ u " " ++ strip frame_cmd_X)],
        inr (Some (mkCmdResult (strip (u "X")) false (u "未找到匹配指令")))).
Proof.
  assert (H1 : strip frame_cmd_X <> []) by (vm_compute; discriminate).
  assert (H2 : starts_with (u "{") (strip frame_cmd_X) = true)
    by (vm_compute; reflexivity).
  assert (H3 : sample_loads (strip frame_cmd_X)
               = JsonObject (FStr (u "cmd")) (FStr (u "X")))
    by (vm_compute; reflexivity).
  assert (H4 : strip (u "cmd") = u "cmd") by (vm_compute; reflexivity).
  assert (H5 : _match_command (u "X") [list_command] = None)
    by (vm_compute; reflexivity).
  split; [exact (conj H1 (conj H2 (conj H3 (conj H4 H5))))|].
  exact (ws_unmatched_command sample_loads run_ok [list_command] new_service
           frame_cmd_X (u "cmd") (u "X") (100 # 1)%Q H1 H2 H3 H4 H5).
Defined.

Lemma transports_agree_witness :
  strip (u "hi") <> []
  /\ ws_on_message sample_loads run_ok [list_command] new_service frame_hi
       (100 # 1)%Q
     = (fst (fst (send_http run_ok [list_command] new_service
                    (mkRequest FNone (FStr (u "hi")) None None) (100 # 1)%Q)),
        EvPrint (u "收到：" ++ u " " ++ strip frame_hi)
        :: snd (fst (send_http run_ok [list_command] new_service
                       (mkRequest FNone (FStr (u "hi")) None None) (100 # 1)%Q)),
        reply_of (snd (send_http run_ok [list_command] new_service
                         (mkRequest FNone (FStr (u "hi")) None None) (100 # 1)%Q)))
  /\ snd (fst (send_http run_ok [list_command] new_service
                 (mkRequest FNone (FStr (u "hi")) None None) (100 # 1)%Q))
     = [EvType (u "hi")].
Proof.
  assert (H0 : strip (u "hi") <> []) by (vm_compute; discriminate).
  assert (H1 : strip frame_hi <> []) by (vm_compute; discriminate).
  assert (H2 : starts_with (u "{") (strip frame_hi) = true)
    by (vm_compute; reflexivity).
  assert (H3 : sample_loads (strip frame_hi) = JsonObject FNone (FStr (u "hi")))
    by (vm_compute; reflexivity).
  split; [exact H0|]. split.
  - exact (proj1 (transports_agree sample_loads run_ok [list_command] new_service
                    frame_hi (u "hi") FNone (100 # 1)%Q H1 H2 H3 (or_introl eq_refl))
             H0).
  - vm_compute. reflexivity.
Defined.

(** ** [is_valid_ipv4] *)

Lemma span_head_stop (p : N -> bool) (r : ustring) :
  match r with [] => True | c :: _ => p c = false end -> span p r = ([], r).
Proof. destruct r as [|c r]; simpl; [reflexivity|]. now intros ->. Qed.

Lemma digits_1_3_intro (a r : ustring) :
  digit_group a ->
  match r with [] => True | c :: _ => is_digit c = false end ->
  server.digits_1_3 (a ++ r) = Some r.
Proof.
  intros [Hd Hl] Hr. unfold server.digits_1_3.
  rewrite (span_app is_digit a r Hd), (span_head_stop is_digit r Hr).
  cbn [fst snd]. rewrite app_nil_r.
  destruct (Nat.leb_spec 1 (length a)); [|lia].
  destruct (Nat.leb_spec (length a) 3); [reflexivity | lia].
Qed.

Lemma digits_1_3_dot (a r : ustring) :
  digit_group a -> server.digits_1_3 (a ++ 46%N :: r) = Some (46%N :: r).
Proof. intros Ha. apply digits_1_3_intro; [exact Ha | reflexivity]. Qed.

Lemma digits_1_3_elim (s r : ustring) :
  server.digits_1_3 s = Some r ->
  exists a, s = a ++ r /\ digit_group a
            /\ match r with [] => True | c :: _ => is_digit c = false end.
Proof.
  unfold server.digits_1_3.
  pose proof (span_spec is_digit s) as (S1 & S2 & S3).
  destruct (span is_digit s) as [ds r']. cbn [fst snd] in *.
  destruct (Nat.leb_spec 1 (length ds)) as [L1|L1]; [|discriminate].
  destruct (Nat.leb_spec (length ds) 3) as [L3|L3]; [|discriminate].
  intros E; injection E as <-. exists ds. repeat split; auto.
Qed.

Lemma digit_not_dot_or_newline (c : N) :
  is_digit c = true -> (c =? 46)%N = false /\ (c =? 10)%N = false.
Proof.
  intros H. split.
  - destruct (N.eqb_spec c 46); [subst; vm_compute in H; discriminate | reflexivity].
  - destruct (N.eqb_spec c 10); [subst; vm_compute in H; discriminate | reflexivity].
Qed.

Lemma split_on_non_nil (sep : N) (s : ustring) : server.split_on sep s <> [].
Proof.
  induction s as [|c s IH]; simpl; [discriminate|].
  destruct (c =? sep)%N; [discriminate|].
  destruct (server.split_on sep s); [congruence | discriminate].
Qed.

Lemma split_on_app (sep : N) (a r : ustring) :
  forallb (fun c => negb (c =? sep)%N) a = true ->
  server.split_on sep (a ++ sep :: r) = a :: server.split_on sep r.
Proof.
  induction a as [|c a IH]; simpl; intros H.
  - now rewrite N.eqb_refl.
  - apply andb_true_iff in H as [Hc Ha]. apply negb_true_iff in Hc.
    now rewrite Hc, (IH Ha).
Qed.

Lemma split_on_none (sep : N) (a : ustring) :
  forallb (fun c => negb (c =? sep)%N) a = true -> server.split_on sep a = [a].
Proof.
  induction a as [|c a IH]; simpl; intros H; [reflexivity|].
  apply andb_true_iff in H as [Hc Ha]. apply negb_true_iff in Hc.
  now rewrite Hc, (IH Ha).
Qed.

Lemma digits_no_dot (a : ustring) :
  forallb is_digit a = true -> forallb (fun c => negb (c =? 46)%N) a = true.
Proof.
  induction a as [|c a IH]; simpl; [reflexivity|]. intros H.
  apply andb_true_iff in H as [Hc Ha].
  now rewrite (proj1 (digit_not_dot_or_newline c Hc)), (IH Ha).
Qed.

Lemma strip_digits (a : ustring) : forallb is_digit a = true -> strip a = a.
Proof.
  intros H. unfold strip, rstrip.
  assert (F : forall x, forallb is_digit x = true -> lstrip x = x).
  { intros x Hx. apply lstrip_fixed. destruct x as [|c x]; [exact I|].
    simpl in Hx. apply andb_true_iff in Hx as [Hc _]. now apply digit_not_space. }
  rewrite (F a H), (F (rev a)) by now rewrite forallb_rev.
  apply rev_involutive.
Qed.

Lemma strip_digits_newline (a : ustring) :
  forallb is_digit a = true -> strip (a ++ [10%N]) = a.
Proof.
  intros H. unfold strip, rstrip.
  assert (F : forall x, forallb is_digit x = true -> lstrip x = x).
  { intros x Hx. apply lstrip_fixed. destruct x as [|c x]; [exact I|].
    simpl in Hx. apply andb_true_iff in Hx as [Hc _]. now apply digit_not_space. }
  assert (L : lstrip (a ++ [10%N]) = match a with [] => [] | _ => a ++ [10%N] end).
  { destruct a as [|c a]; [reflexivity|]. apply lstrip_fixed. simpl.
    simpl in H. apply andb_true_iff in H as [Hc _]. now apply digit_not_space. }
  rewrite L. destruct a as [|c a]; [reflexivity|].
  rewrite rev_app_distr. cbn [rev app lstrip].
  change (is_space 10) with true. cbv iota.
  change (rev a ++ [c]) with (rev (c :: a)).
  rewrite (F (rev (c :: a))) by now rewrite forallb_rev.
  apply rev_involutive.
Qed.

Lemma int_of_part_digits (a nl : ustring) :
  digit_group a -> nl = [] \/ nl = [10%N] ->
  server.int_of_part (a ++ nl) = Some (int_of_digits a).
Proof.
  intros [Hd Hl] Hnl. unfold server.int_of_part.
  assert (E : strip (a ++ nl) = a).
  { destruct Hnl as [-> | ->]; [rewrite app_nil_r; now apply strip_digits|].
    now apply strip_digits_newline. }
  rewrite E. destruct a as [|c a]; [simpl in Hl; lia|]. now rewrite Hd.
Qed.

Lemma int_of_part_group (a : ustring) :
  digit_group a -> server.int_of_part a = Some (int_of_digits a).
Proof.
  intros Ha. rewrite <- (app_nil_r a) at 1. apply int_of_part_digits; auto.
Qed.

(** [is_valid_ipv4] on a text of four groups of one to three digits
    between dots, with or without a final line break. *)
Lemma is_valid_ipv4_groups (a b c d nl : ustring) :
  digit_group a -> digit_group b -> digit_group c -> digit_group d ->
  nl = [] \/ nl = [10%N] ->
  server.ipv4_pattern (a ++ 46%N :: b ++ 46%N :: c ++ 46%N :: d ++ nl) = true
  /\ server.is_valid_ipv4 (a ++ 46%N :: b ++ 46%N :: c ++ 46%N :: d ++ nl)
     = (int_of_digits a <=? 255)%Z && (int_of_digits b <=? 255)%Z
       && (int_of_digits c <=? 255)%Z && (int_of_digits d <=? 255)%Z.
Proof.
  intros Ha Hb Hc Hd Hnl.
  assert (Hend : match nl with [] => True | x :: _ => is_digit x = false end)
    by (destruct Hnl as [-> | ->]; [exact I | reflexivity]).
  assert (P : server.ipv4_pattern (a ++ 46%N :: b ++ 46%N :: c ++ 46%N :: d ++ nl)
              = true).
  { unfold server.ipv4_pattern.
    rewrite (digits_1_3_dot a _ Ha).
    cbn [server.dot_digits_1_3]. rewrite N.eqb_refl.
    rewrite (digits_1_3_dot b _ Hb).
    cbn [server.dot_digits_1_3]. rewrite N.eqb_refl.
    rewrite (digits_1_3_dot c _ Hc).
    cbn [server.dot_digits_1_3]. rewrite N.eqb_refl.
    rewrite (digits_1_3_intro d _ Hd Hend).
    destruct Hnl as [-> | ->]; reflexivity. }
  split; [exact P|].
  unfold server.is_valid_ipv4. rewrite P. cbn [negb].
  assert (Hnd : forallb (fun x => negb (x =? 46)%N) (d ++ nl) = true).
  { rewrite forallb_app, (digits_no_dot d (proj1 Hd)).
    destruct Hnl as [-> | ->]; reflexivity. }
  rewrite (split_on_app 46 a _ (digits_no_dot a (proj1 Ha))).
  rewrite (split_on_app 46 b _ (digits_no_dot b (proj1 Hb))).
  rewrite (split_on_app 46 c _ (digits_no_dot c (proj1 Hc))).
  rewrite (split_on_none 46 _ Hnd).
  cbn [server.int_parts].
  rewrite (int_of_part_group a Ha), (int_of_part_group b Hb),
    (int_of_part_group c Hc), (int_of_part_digits d nl Hd Hnl).
  cbn [forallb].
  pose proof (int_of_digits_nonneg a). pose proof (int_of_digits_nonneg b).
  pose proof (int_of_digits_nonneg c). pose proof (int_of_digits_nonneg d).
  repeat match goal with
         | H : (0 <= ?n)%Z |- _ => apply Z.leb_le in H; rewrite H; clear H
         end.
  cbn [andb]. rewrite andb_true_r.
  destruct a as [|x a]; [destruct Ha as [_ Hl]; simpl in Hl; lia|].
  rewrite !andb_assoc. reflexivity.
Qed.

Lemma ipv4_pattern_elim (ip : ustring) :
  server.ipv4_pattern ip = true ->
  exists a b c d nl,
    ip = a ++ 46%N :: b ++ 46%N :: c ++ 46%N :: d ++ nl
    /\ digit_group a /\ digit_group b /\ digit_group c /\ digit_group d
    /\ (nl = [] \/ nl = [10%N]).
Proof.
  unfold server.ipv4_pattern.
  destruct (server.digits_1_3 ip) as [r1|] eqn:E1; [|discriminate].
  destruct r1 as [|x1 r1]; [discriminate|]. cbn [server.dot_digits_1_3].
  destruct (N.eqb_spec x1 46) as [->|]; [|discriminate].
  destruct (server.digits_1_3 r1) as [r2|] eqn:E2; [|discriminate].
  destruct r2 as [|x2 r2]; [discriminate|]. cbn [server.dot_digits_1_3].
  destruct (N.eqb_spec x2 46) as [->|]; [|discriminate].
  destruct (server.digits_1_3 r2) as [r3|] eqn:E3; [|discriminate].
  destruct r3 as [|x3 r3]; [discriminate|]. cbn [server.dot_digits_1_3].
  destruct (N.eqb_spec x3 46) as [->|]; [|discriminate].
  destruct (server.digits_1_3 r3) as [r4|] eqn:E4; [|discriminate].
  intros Hend.
  apply digits_1_3_elim in E1 as (a & -> & Ha & _).
  apply digits_1_3_elim in E2 as (b & -> & Hb & _).
  apply digits_1_3_elim in E3 as (c & -> & Hc & _).
  apply digits_1_3_elim in E4 as (d & -> & Hd & _).
  exists a, b, c, d, r4.
  split; [reflexivity|]. split; [exact Ha|]. split; [exact Hb|].
  split; [exact Hc|]. split; [exact Hd|].
  destruct r4 as [|y [|z r4]]; [now left| |discriminate].
  cbn in Hend. apply N.eqb_eq in Hend. subst. now right.
Qed.

(** X18. [is_valid_ipv4] accepts exactly the texts made of four groups of
    one to three decimal digits, each of value at most 255, separated by
    dots, with nothing around them but, possibly, one final line break
    (which [$] and [int] both let pass).  The digits are those of [\d]:
    any Unicode decimal digit counts. *)
Theorem is_valid_ipv4_iff (ip : ustring) :
  server.is_valid_ipv4 ip = true
  <-> exists a b c d nl,
        ip = a ++ 46%N :: b ++ 46%N :: c ++ 46%N :: d ++ nl
        /\ (nl = [] \/ nl = [10%N])
        /\ digit_group a /\ digit_group b /\ digit_group c /\ digit_group d
        /\ (int_of_digits a <= 255)%Z /\ (int_of_digits b <= 255)%Z
        /\ (int_of_digits c <= 255)%Z /\ (int_of_digits d <= 255)%Z.
Proof.
  split.
  - intros H.
    assert (P : server.ipv4_pattern ip = true).
    { unfold server.is_valid_ipv4 in H. destruct ip; [discriminate|].
      destruct (server.ipv4_pattern (n :: ip)); [reflexivity | discriminate]. }
    destruct (ipv4_pattern_elim ip P) as (a & b & c & d & nl & -> & Ha & Hb & Hc & Hd & Hnl).
    rewrite (proj2 (is_valid_ipv4_groups a b c d nl Ha Hb Hc Hd Hnl)) in H.
    repeat (apply andb_true_iff in H as [H ?]).
    exists a, b, c, d, nl.
    repeat match goal with
           | H : (_ <=? _)%Z = true |- _ => apply Z.leb_le in H
           end.
    tauto.
  - intros (a & b & c & d & nl & -> & Hnl & Ha & Hb & Hc & Hd & La & Lb & Lc & Ld).
    rewrite (proj2 (is_valid_ipv4_groups a b c d nl Ha Hb Hc Hd Hnl)).
    apply Z.leb_le in La, Lb, Lc, Ld. now rewrite La, Lb, Lc, Ld.
Qed.

(** ** [is_candidate_ipv4] *)

Lemma starts_with_groups (k1 k2 a r : ustring) :
  forallb (fun c => negb (c =? 46)%N) k1 = true ->
  forallb (fun c => negb (c =? 46)%N) a = true ->
  starts_with (k1 ++ 46%N :: k2) (a ++ 46%N :: r)
  = ustring_eqb k1 a && starts_with k2 r.
Proof.
  revert a; induction k1 as [|y k1 IH]; intros [|x a] Hk Ha;
    cbn [starts_with ustring_eqb app forallb] in *.
  - reflexivity.
  - apply andb_true_iff in Ha as [Hx _]. apply negb_true_iff in Hx.
    rewrite N.eqb_sym, Hx. reflexivity.
  - apply andb_true_iff in Hk as [Hy _]. apply negb_true_iff in Hy.
    now rewrite Hy.
  - apply andb_true_iff in Hk as [_ Hk]. apply andb_true_iff in Ha as [_ Ha].
    rewrite (IH a Hk Ha). now rewrite andb_assoc.
Qed.

(** X19. Among the texts of four digit groups, [is_candidate_ipv4] keeps
    the valid ones except those whose first group is the text [127] or
    [0], or whose first two groups are the texts [169] and [254]: the
    groups are compared as text, not by value. *)
Theorem is_candidate_ipv4_groups (a b c d nl : ustring) :
  digit_group a -> digit_group b -> digit_group c -> digit_group d ->
  nl = [] \/ nl = [10%N] ->
  server.is_candidate_ipv4 (a ++ 46%N :: b ++ 46%N :: c ++ 46%N :: d ++ nl)
  = server.is_valid_ipv4 (a ++ 46%N :: b ++ 46%N :: c ++ 46%N :: d ++ nl)
    && negb (ustring_eqb (u "127") a)
    && negb (ustring_eqb (u "0") a)
    && negb (ustring_eqb (u "169") a && ustring_eqb (u "254") b).
Proof.
  intros Ha Hb Hc Hd Hnl. unfold server.is_candidate_ipv4.
  pose proof (digits_no_dot a (proj1 Ha)) as Na.
  pose proof (digits_no_dot b (proj1 Hb)) as Nb.
  change (u "127.") with (u "127" ++ 46%N :: []).
  change (u "0.") with (u "0" ++ 46%N :: []).
  change (u "169.254.") with (u "169" ++ 46%N :: u "254" ++ 46%N :: []).
  rewrite !starts_with_groups by (assumption || reflexivity).
  cbn [starts_with]. rewrite !andb_true_r.
  destruct (server.is_valid_ipv4 _); [|reflexivity].
  cbn [negb andb].
  destruct (ustring_eqb (u "127") a); [reflexivity|].
  destruct (ustring_eqb (u "0") a); [reflexivity|].
  destruct (ustring_eqb (u "169") a && ustring_eqb (u "254") b); reflexivity.
Qed.

Lemma is_candidate_ipv4_groups_witness :
  (digit_group (u "00") /\ digit_group (u "1") /\ digit_group (u "2")
   /\ digit_group (u "3"))
  /\ server.is_candidate_ipv4
       (u "00" ++ 46%N :: u "1" ++ 46%N :: u "2" ++ 46%N :: u "3" ++ [])
     = server.is_valid_ipv4
         (u "00" ++ 46%N :: u "1" ++ 46%N :: u "2" ++ 46%N :: u "3" ++ [])
       && negb (ustring_eqb (u "127") (u "00"))
       && negb (ustring_eqb (u "0") (u "00"))
       && negb (ustring_eqb (u "169") (u "00") && ustring_eqb (u "254") (u "1"))
  /\ server.is_candidate_ipv4 (u "00.1.2.3") = true
  /\ server.is_candidate_ipv4 (u "0.1.2.3") = false.
Proof.
  assert (G : forall x, forallb is_digit x = true -> 1 <= length x <= 3 ->
                        digit_group x) by (intros x H1 H2; now split).
  assert (H0 : digit_group (u "00")) by (apply G; [reflexivity | simpl; lia]).
  assert (H1 : digit_group (u "1")) by (apply G; [reflexivity | simpl; lia]).
  assert (H2 : digit_group (u "2")) by (apply G; [reflexivity | simpl; lia]).
  assert (H3 : digit_group (u "3")) by (apply G; [reflexivity | simpl; lia]).
  split; [exact (conj H0 (conj H1 (conj H2 H3)))|].
  split; [exact (is_candidate_ipv4_groups _ _ _ _ [] H0 H1 H2 H3 (or_introl eq_refl))|].
  split; vm_compute; reflexivity.
Defined.

(** ** The synthetic injector *)

Lemma WORD_small (n : Z) : (0 <= n < 2 ^ 16)%Z -> win.WORD n = n.
Proof. intros H. unfold win.WORD. now apply Z.mod_small. Qed.

Lemma is_key_up_flags (vk scan flags : Z) :
  win.is_key_up (win.keyboard_input vk scan flags)
  = Z.testbit (win.DWORD flags) 1.
Proof. reflexivity. Qed.

(** X20. The synthetic variant of [send_unicode_text] submits two events
    per character, a key press then a key release, and the scan codes of
    the key presses are the code points of the text reduced modulo 2^16:
    they spell the text exactly when it has no character beyond U+FFFF,
    and a character beyond it is sent as another character. *)
Theorem synthetic_text_events (text : ustring) :
  length (win.send_unicode_text text) = 2 * length text
  /\ win.typed_codes (win.send_unicode_text text)
     = map (fun ch => (Z.of_N ch mod 2 ^ 16)%Z) text
  /\ (win.typed_codes (win.send_unicode_text text) = map Z.of_N text
      <-> forallb (fun ch => ch <? 0x10000)%N text = true).
Proof.
  assert (T : win.typed_codes (win.send_unicode_text text)
              = map (fun ch => (Z.of_N ch mod 2 ^ 16)%Z) text).
  { induction text as [|ch text IH]; [reflexivity|].
    unfold win.typed_codes in *. cbn [win.send_unicode_text flat_map app].
    cbn [filter]. rewrite !is_key_up_flags.
    change (Z.testbit (win.DWORD win.KEYEVENTF_UNICODE) 1) with false.
    change (Z.testbit (win.DWORD (Z.lor win.KEYEVENTF_UNICODE win.KEYEVENTF_KEYUP)) 1)
      with true.
    cbn [negb map]. f_equal. exact IH. }
  split; [|split; [exact T|]].
  - clear T. induction text as [|ch text IH]; [reflexivity|].
    change (win.send_unicode_text (ch :: text))
      with (win.keyboard_input 0 (Z.of_N ch) win.KEYEVENTF_UNICODE
            :: win.keyboard_input 0 (Z.of_N ch)
                 (Z.lor win.KEYEVENTF_UNICODE win.KEYEVENTF_KEYUP)
            :: win.send_unicode_text text).
    cbn [length]. rewrite IH. lia.
  - rewrite T. clear T. induction text as [|ch text IH]; [simpl; tauto|].
    cbn [map forallb]. rewrite andb_true_iff, <- IH. split.
    + intros H. injection H as H1 H2. split; [|exact H2].
      apply N.ltb_lt.
      pose proof (Z.mod_pos_bound (Z.of_N ch) (2 ^ 16) ltac:(lia)). lia.
    + intros [H1 H2]. apply N.ltb_lt in H1. f_equal; [|exact H2].
      apply Z.mod_small. lia.
Qed.

(** [backspace] of the synthetic variant presses and releases the key
    [n] times, in [n] separate batches, and does nothing for [n <= 0]. *)
Lemma synthetic_backspace_batches (n : Z) :
  length (win.backspace n) = Z.to_nat n
  /\ Forall (fun batch => map (fun e => win.wVk (win.ki e)) batch = [8; 8]%Z)
       (win.backspace n).
Proof.
  unfold win.backspace, win.press_vk.
  destruct (Z.ltb_spec 0 n) as [L|L].
  - split; [apply repeat_length|].
    apply Forall_forall. intros b Hb. apply repeat_spec in Hb. now subst.
  - split; [simpl; lia | constructor].
Qed.

(** ** [get_ipv4_candidates] *)

Lemma fold_keep_first (l : list (ustring * ustring)) :
  forall seen dedup,
    (forall ip, In ip seen <-> In ip (map snd dedup)) ->
    NoDup (map snd dedup) ->
    NoDup (map snd (snd (fold_left server.keep_first l (seen, dedup))))
    /\ (forall ip,
          In ip (map snd (snd (fold_left server.keep_first l (seen, dedup))))
          <-> In ip (map snd dedup) \/ In ip (map snd l))
    /\ (forall c,
          In c (snd (fold_left server.keep_first l (seen, dedup))) ->
          In c dedup
          \/ exists l1 l2,
               l = l1 ++ c :: l2
               /\ ~ In (snd c) (map snd l1)
               /\ ~ In (snd c) (map snd dedup)).
Proof.
  induction l as [|c0 l IH]; intros seen dedup Hs Hn.
  - cbn [fold_left snd map]. split; [exact Hn|]. split; [|auto].
    intros ip. cbn [In]. tauto.
  - cbn [fold_left server.keep_first].
    destruct (mem (snd c0) seen) eqn:M.
    + apply mem_In in M. apply Hs in M.
      destruct (IH seen dedup Hs Hn) as (N & I & F).
      split; [exact N|]. split.
      * intros ip. rewrite I. cbn [map In]. split; [tauto|].
        intros [H|[H|H]]; [tauto | subst ip; tauto | tauto].
      * intros c Hc. destruct (F c Hc) as [H|(l1 & l2 & E & N1 & N2)]; [now left|].
        right. exists (c0 :: l1), l2. subst l. split; [reflexivity|].
        split; [|exact N2]. cbn [map In]. intros [H|H]; [|tauto].
        apply N2. now rewrite <- H.
    + assert (M' : ~ In (snd c0) (map snd dedup)).
      { intros H. apply Hs in H. apply mem_In in H. congruence. }
      assert (Hs' : forall ip, In ip (snd c0 :: seen)
                               <-> In ip (map snd (dedup ++ [c0]))).
      { intros ip. rewrite map_app, in_app_iff. cbn [map In]. rewrite Hs. tauto. }
      assert (Hn' : NoDup (map snd (dedup ++ [c0]))).
      { rewrite map_app. apply NoDup_app; [exact Hn | repeat constructor; auto |].
        intros a Ha [<-|[]]. tauto. }
      destruct (IH _ _ Hs' Hn') as (N & I & F).
      split; [exact N|]. split.
      * intros ip. rewrite I, map_app, in_app_iff. cbn [map In]. tauto.
      * intros c Hc. destruct (F c Hc) as [H|(l1 & l2 & E & N1 & N2)].
        -- apply in_app_iff in H as [H|[<-|[]]]; [now left|].
           right. exists [], l. repeat split; auto.
        -- right. exists (c0 :: l1), l2. subst l. split; [reflexivity|].
           rewrite map_app, in_app_iff in N2. cbn [map In] in *. split; [|tauto].
           intros [H|H]; [|tauto]. apply N2. right. left. exact H.
Qed.

Lemma dedup_by_ip_spec (l : list (ustring * ustring)) :
  NoDup (map snd (server.dedup_by_ip l))
  /\ (forall ip, In ip (map snd (server.dedup_by_ip l)) <-> In ip (map snd l))
  /\ (forall c, In c (server.dedup_by_ip l) ->
                exists l1 l2, l = l1 ++ c :: l2 /\ ~ In (snd c) (map snd l1)).
Proof.
  destruct (fold_keep_first l [] []) as (N & I & F);
    [cbn; tauto | constructor |].
  unfold server.dedup_by_ip. split; [exact N|]. split.
  - intros ip. rewrite I. cbn [map In]. tauto.
  - intros c Hc. destruct (F c Hc) as [[]|(l1 & l2 & E & N1 & _)]. eauto.
Qed.

Lemma ipv4_candidates_are_candidates
    (is_windows : bool) (found : list (ustring * ustring))
    (hostname : ustring) (host_ips : option (list ustring)) (ip2 : ustring)
    (c : ustring * ustring) :
  In c (server.ipv4_candidates is_windows found hostname host_ips ip2) ->
  server.is_candidate_ipv4 (snd c) = true.
Proof.
  unfold server.ipv4_candidates. rewrite !in_app_iff. intros [H|[H|H]].
  - destruct is_windows; [|destruct H]. unfold server.parse_windows_ipconfig in H.
    cbn [negb] in H.
    destruct (dedup_by_ip_spec
                (flat_map
                   (fun m =>
                      if server.is_candidate_ipv4 (strip (snd m))
                      then [(fst m ++ u " - " ++ strip (snd m), strip (snd m))]
                      else [])
                   found)) as (_ & _ & F).
    destruct (F c H) as (l1 & l2 & E & _).
    assert (Hc : In c (l1 ++ c :: l2)) by apply in_elt. rewrite <- E in Hc.
    apply in_flat_map in Hc as (m & _ & Hm).
    destruct (server.is_candidate_ipv4 (strip (snd m))) eqn:K; [|destruct Hm].
    destruct Hm as [<-|[]]. exact K.
  - destruct host_ips as [ips|]; [|destruct H].
    apply in_flat_map in H as (ip & _ & Hm).
    destruct (server.is_candidate_ipv4 ip) eqn:K; [|destruct Hm].
    destruct Hm as [<-|[]]. exact K.
  - destruct (server.is_candidate_ipv4 ip2) eqn:K; [|destruct H].
    destruct H as [<-|[]]. exact K.
Qed.

(** X21. [get_ipv4_candidates] never returns an empty list and never lists
    an address twice.  Either no source reported a candidate address and
    the list is the single loopback entry, or every address of the list is
    a candidate address; every candidate address that the host name lookup
    or the default route reports is in the list, and an entry carries the
    label of the first source that reported its address. *)
Theorem ipv4_candidates_distinct
    (is_windows : bool) (found : list (ustring * ustring))
    (hostname : ustring) (host_ips : option (list ustring)) (ip2 : ustring) :
  let candidates := server.ipv4_candidates is_windows found hostname host_ips ip2 in
  let r := server.get_ipv4_candidates is_windows found hostname host_ips ip2 in
  r <> []
  /\ NoDup (map snd r)
  /\ ((candidates = [] /\ r = [server.loopback_entry])
      \/ (candidates <> []
          /\ Forall (fun c => server.is_candidate_ipv4 (snd c) = true) r
          /\ forall c, In c r ->
               exists l1 l2, candidates = l1 ++ c :: l2
                             /\ ~ In (snd c) (map snd l1)))
  /\ (forall ip, server.is_candidate_ipv4 ip = true ->
                 (ip = ip2 \/ exists ips, host_ips = Some ips /\ In ip ips) ->
                 In ip (map snd r)).
Proof.
  intros candidates r.
  destruct (dedup_by_ip_spec candidates) as (N & I & F).
  assert (R : r = match server.dedup_by_ip candidates with
                  | [] => [server.loopback_entry]
                  | d => d
                  end) by reflexivity.
  assert (Hin : forall ip, server.is_candidate_ipv4 ip = true ->
                  (ip = ip2 \/ exists ips, host_ips = Some ips /\ In ip ips) ->
                  In ip (map snd candidates)).
  { intros ip K H. unfold candidates, server.ipv4_candidates.
    rewrite !map_app, !in_app_iff. destruct H as [->|(ips & -> & H)].
    - right. right. rewrite K. now left.
    - right. left. apply in_map_iff.
      exists (hostname ++ u " - " ++ ip, ip). split; [reflexivity|].
      apply in_flat_map. exists ip. split; [exact H|]. rewrite K. now left. }
  destruct (server.dedup_by_ip candidates) as [|d ds] eqn:D.
  - assert (E : candidates = []).
    { destruct candidates as [|c cs]; [reflexivity|].
      exfalso. apply (proj2 (I (snd c))). now left. }
    rewrite R. split; [discriminate|]. split.
    + repeat constructor. intros [].
    + split; [now left|]. intros ip K H.
      specialize (Hin ip K H). rewrite E in Hin. destruct Hin.
  - rewrite R. split; [discriminate|]. split; [exact N|]. split.
    + right. split.
      * intros E. rewrite E in I. apply (proj1 (I (snd d))). now left.
      * split; [|exact F]. apply Forall_forall. intros c Hc.
        destruct (F c Hc) as (l1 & l2 & E & _).
        apply (ipv4_candidates_are_candidates is_windows found hostname host_ips ip2).
        fold candidates. rewrite E. apply in_elt.
    + intros ip K H. apply I. now apply Hin.
Qed.

(** ** The configuration file *)

Lemma load_from_spec (path : config_path) (f : field) (cmds : raw_commands)
    (st : ConfigState) (lan_ip : ustring) :
  (snd (load_from path f cmds st) = None ->
   CONFIG_PATH_IN_USE (fst (load_from path f cmds st)) = path
   /\ match USER_IP (fst (load_from path f cmds st)) with
      | None => truthy f = false \/ exists s, f = FStr s /\ strip s = []
      | Some ip =>
          (exists s, f = FStr s /\ ip = strip s) /\ ip <> []
          /\ server.get_effective_ip (Some ip) lan_ip = ip
      end)
  /\ (snd (load_from path f cmds st) <> None ->
      (exists s, f = FOther true s)
      /\ USER_IP (fst (load_from path f cmds st)) = USER_IP st
      /\ CONFIG_PATH_IN_USE (fst (load_from path f cmds st)) = CONFIG_PATH_IN_USE st)
  /\ COMMANDS (fst (load_from path f cmds st)) = _normalize_commands cmds.
Proof.
  unfold load_from, read_user_ip.
  destruct f as [|s|[|] s]; [ | destruct s as [|c s] | | ]; cbn [truthy].
  3: destruct (strip (c :: s)) as [|x xs] eqn:E.
  all: cbn [fst snd USER_IP CONFIG_PATH_IN_USE COMMANDS];
    (split; [intros H | split; [intros H | reflexivity]]);
    try (now elim H); try discriminate H.
  - split; [reflexivity | now left].
  - split; [reflexivity | now left].
  - split; [reflexivity | right; eauto].
  - split; [reflexivity|]. split; [eauto|]. split; [discriminate|].
    unfold server.get_effective_ip, non_blank.
    rewrite <- E, strip_idempotent, E. reflexivity.
  - eauto.
  - split; [reflexivity | now left].
Qed.

(** X22. [load_config] takes the first of the two files that holds a
    dictionary, the primary one first, and writes a file only when neither
    does (then with no address and no commands, to the first path that
    can be written).  When it returns, [USER_IP] is [None] or the stored
    string stripped and not blank, which [get_effective_ip] then returns
    as it is.  It raises only when the address stored in the file it
    takes is a true value that is no string, and then [COMMANDS] is
    already replaced while [USER_IP] and the path in use are not. *)
Theorem load_config_user_ip
    (read : config_path -> option config_json)
    (can_write : config_path -> bool) (st : ConfigState) (lan_ip : ustring) :
  let r := load_config read can_write st in
  let st' := fst (fst r) in
  (snd r = None ->
   match USER_IP st' with
   | None => True
   | Some ip =>
       ip <> [] /\ server.get_effective_ip (Some ip) lan_ip = ip
       /\ exists s cmds, read (CONFIG_PATH_IN_USE st') = Some (CfgDict (FStr s) cmds)
                         /\ ip = strip s
   end)
  /\ (snd r <> None ->
      exists path s cmds,
        read path = Some (CfgDict (FOther true s) cmds)
        /\ COMMANDS st' = _normalize_commands cmds
        /\ USER_IP st' = USER_IP st
        /\ CONFIG_PATH_IN_USE st' = CONFIG_PATH_IN_USE st)
  /\ (is_config_dict (read CONFIG_PATH_PRIMARY) = true ->
      snd (fst r) = []
      /\ exists f cmds, read CONFIG_PATH_PRIMARY = Some (CfgDict f cmds)
                        /\ r = (fst (load_from CONFIG_PATH_PRIMARY f cmds st), [],
                                snd (load_from CONFIG_PATH_PRIMARY f cmds st)))
  /\ (snd (fst r) <> [] ->
      is_config_dict (read CONFIG_PATH_PRIMARY) = false
      /\ is_config_dict (read CONFIG_PATH_FALLBACK) = false
      /\ USER_IP st' = None /\ COMMANDS st' = []
      /\ can_write (CONFIG_PATH_IN_USE st') = true
      /\ snd (fst r) = [(CONFIG_PATH_IN_USE st', (None, []))]).
Proof.
  intros r st'. subst st' r. unfold load_config.
  assert (S : forall st0,
             USER_IP st0 = None -> COMMANDS st0 = [] ->
             USER_IP (fst (save_config can_write st0)) = None
             /\ COMMANDS (fst (save_config can_write st0)) = []
             /\ (snd (save_config can_write st0) <> [] ->
                 can_write (CONFIG_PATH_IN_USE (fst (save_config can_write st0))) = true
                 /\ snd (save_config can_write st0)
                    = [(CONFIG_PATH_IN_USE (fst (save_config can_write st0)), (None, []))])).
  { intros st0 U C. unfold save_config. rewrite U, C.
    destruct (can_write CONFIG_PATH_PRIMARY) eqn:W1;
      [|destruct (can_write CONFIG_PATH_FALLBACK) eqn:W2];
      cbn [fst snd USER_IP COMMANDS CONFIG_PATH_IN_USE];
      (split; [reflexivity || assumption
              | split; [reflexivity || assumption | intros H]]);
      [now rewrite W1 | now rewrite W2 | now elim H]. }
  assert (L : forall path f cmds,
             read path = Some (CfgDict f cmds) ->
             let q := load_from path f cmds st in
             (snd q = None ->
              match USER_IP (fst q) with
              | None => True
              | Some ip =>
                  ip <> [] /\ server.get_effective_ip (Some ip) lan_ip = ip
                  /\ exists s cmds0,
                       read (CONFIG_PATH_IN_USE (fst q)) = Some (CfgDict (FStr s) cmds0)
                       /\ ip = strip s
              end)
             /\ (snd q <> None ->
                 exists path0 s cmds0,
                   read path0 = Some (CfgDict (FOther true s) cmds0)
                   /\ COMMANDS (fst q) = _normalize_commands cmds0
                   /\ USER_IP (fst q) = USER_IP st
                   /\ CONFIG_PATH_IN_USE (fst q) = CONFIG_PATH_IN_USE st)).
  { intros path f cmds R q. subst q.
    destruct (load_from_spec path f cmds st lan_ip) as (A & B & C). split.
    - intros H. destruct (A H) as (P & U).
      destruct (USER_IP (fst (load_from path f cmds st))); [|exact I].
      destruct U as ((s & -> & ->) & N & G). split; [exact N|]. split; [exact G|].
      exists s, cmds. rewrite P. auto.
    - intros H. destruct (B H) as ((s & ->) & U & P).
      exists path, s, cmds. auto. }
  destruct (read CONFIG_PATH_PRIMARY) as [[|f1 c1]|] eqn:R1;
    [ | destruct (L _ _ _ R1) as (A & B);
        destruct (load_from CONFIG_PATH_PRIMARY f1 c1 st) as [q e] eqn:Q;
        cbn [fst snd is_config_dict] in *;
        split; [exact A|]; split; [exact B|]; split;
        [ intros _; split; [reflexivity|]; exists f1, c1; now rewrite Q
        | intros H; now elim H ]
    | ].
  all: destruct (read CONFIG_PATH_FALLBACK) as [[|f2 c2]|] eqn:R2;
    [ | destruct (L _ _ _ R2) as (A & B);
        destruct (load_from CONFIG_PATH_FALLBACK f2 c2 st) as [q e] eqn:Q;
        cbn [fst snd is_config_dict] in *;
        split; [exact A|]; split; [exact B|]; split;
        [ discriminate | intros H; now elim H ]
    | ].
  all: cbn [fst snd is_config_dict];
    destruct (S {| USER_IP := None; COMMANDS := [];
                   CONFIG_PATH_IN_USE := CONFIG_PATH_IN_USE st |} eq_refl eq_refl)
      as (U & C & W);
    split; [intros _; rewrite U; exact I|];
    split; [intros H; now elim H|];
    split; [discriminate|];
    intros H; destruct (W H) as (W1 & W2); auto 10.
Qed.
